(** * audio-backup-cron: the backup orchestration engine

    A shallow embedding of the TypeScript sources

      - src/scheduler.ts  (BackupScheduler: shouldRunBackup, matchCronField)
      - src/supabase.ts   (SupabaseStorage: listAllFiles)
      - src/s3.ts         (S3Uploader: fileExists)
      - src/backup.ts     (StorageBackup: backup, backupFile, cleanupTempDir)
      - src/config.ts     (BackupConfig)

    Pure string and number code is translated to functions; the code that
    talks to Supabase, S3, the file system and Slack is written in a small
    trace-and-exception monad whose external calls are answered by an
    environment record. *)

From Stdlib Require Import ZArith String Ascii List Bool Lia.
From stdpp Require Import base gmap strings list.

Local Open Scope string_scope.
Local Open Scope list_scope.
Local Open Scope Z_scope.

(** ** JavaScript strings and numbers *)

Module Js.

(** [s.split(c)] for a one-character separator [c]: the result always has at
    least one element, and the empty string splits into a single empty field. *)
Fixpoint split (c : ascii) (s : string) : list string :=
  match s with
  | EmptyString => [EmptyString]
  | String a s' =>
      if Ascii.eqb a c then EmptyString :: split c s'
      else match split c s' with
           | [] => [String a EmptyString]
           | h :: t => String a h :: t
           end
  end.

(** [s.includes(c)] for a one-character needle. *)
Fixpoint includes_char (c : ascii) (s : string) : bool :=
  match s with
  | EmptyString => false
  | String a s' => Ascii.eqb a c || includes_char c s'
  end.

(** [s.includes(sub)]. *)
Fixpoint includes (sub s : string) : bool :=
  String.prefix sub s ||
  match s with
  | EmptyString => false
  | String _ s' => includes sub s'
  end.

(** [s.replace(/c/g, d)]: every occurrence of the character is replaced. *)
Fixpoint replace_all (c d : ascii) (s : string) : string :=
  match s with
  | EmptyString => EmptyString
  | String a s' => String (if Ascii.eqb a c then d else a) (replace_all c d s')
  end.

(** White space skipped by [parseInt] (the ASCII part of StrWhiteSpaceChar). *)
Definition is_ws (a : ascii) : bool :=
  let n := nat_of_ascii a in
  (n =? 32)%nat || ((9 <=? n)%nat && (n <=? 13)%nat).

Fixpoint skip_ws (s : string) : string :=
  match s with
  | String a s' => if is_ws a then skip_ws s' else s
  | EmptyString => s
  end.

(** Value of a character as a digit in the given radix (10 or 16). *)
Definition digit_val (radix : Z) (a : ascii) : option Z :=
  let n := Z.of_nat (nat_of_ascii a) in
  if (48 <=? n) && (n <=? 57) then Some (n - 48)
  else if (radix =? 16) && (97 <=? n) && (n <=? 102) then Some (n - 87)
  else if (radix =? 16) && (65 <=? n) && (n <=? 70) then Some (n - 55)
  else None.

(** The longest prefix of digits, read as a number; [None] when there is no
    digit at all. [acc] is the value read so far. *)
Fixpoint digits (radix : Z) (s : string) (acc : option Z) : option Z :=
  match s with
  | EmptyString => acc
  | String a s' =>
      match digit_val radix a with
      | Some d => digits radix s' (Some (match acc with
                                          | Some n => n * radix + d
                                          | None => d
                                          end))
      | None => acc
      end
  end.

(** An optional sign in front of the number. *)
Definition strip_sign (s : string) : bool * string :=
  match s with
  | String c r =>
      if Ascii.eqb c "-" then (true, r)
      else if Ascii.eqb c "+" then (false, r)
      else (false, s)
  | EmptyString => (false, s)
  end.

(** Without a radix argument a leading [0x] or [0X] selects radix 16. *)
Definition strip_radix (s : string) : Z * string :=
  match s with
  | String c (String d r) =>
      if Ascii.eqb c "0" && (Ascii.eqb d "x" || Ascii.eqb d "X") then (16, r)
      else (10, s)
  | _ => (10, s)
  end.

(** [parseInt(s)] without a radix argument; [None] is NaN. The number is
    kept exact: the callers only compare it with calendar values below 60
    and take a remainder by it, and rounding to a double changes neither. *)
Definition parseInt (s : string) : option Z :=
  let '(neg, s2) := strip_sign (skip_ws s) in
  let '(radix, s3) := strip_radix s2 in
  match digits radix s3 None with
  | Some n => Some (if neg then - n else n)
  | None => None
  end.

(** [x === y] where [x] may be NaN. *)
Definition num_eq (x : option Z) (y : Z) : bool :=
  match x with Some a => a =? y | None => false end.

(** [v % step === 0]: the remainder by zero and by NaN is NaN. *)
Definition rem_is_zero (v : Z) (step : option Z) : bool :=
  match step with
  | Some b => if b =? 0 then false else Z.rem v b =? 0
  | None => false
  end.

(** [v >= lo && v <= hi] where the bounds may be NaN. *)
Definition in_range (v : Z) (lo hi : option Z) : bool :=
  match lo, hi with
  | Some a, Some b => (a <=? v) && (v <=? b)
  | _, _ => false
  end.

(** [arr.slice(s, e)] on integer arguments: negative indices count from the
    end, and both are clamped to the array. *)
Definition slice {A} (l : list A) (s e : Z) : list A :=
  let n := Z.of_nat (length l) in
  let clamp k := if k <? 0 then Z.max (n + k) 0 else Z.min k n in
  let s' := clamp s in
  let e' := clamp e in
  take (Z.to_nat (e' - s')) (drop (Z.to_nat s') l).

End Js.

(** ** src/scheduler.ts *)

Module Scheduler.

(** The calendar components read from [new Date()]. *)
Record DateParts := {
  getMinutes : Z;
  getHours : Z;
  getDate : Z;
  getMonth : Z;   (* 0-based, as in JavaScript *)
  getDay : Z
}.

Definition stepRule (cronField : string) (currentValue : Z) : option bool :=
  if Js.includes_char "/" cronField then
    let parts := Js.split "/" cronField in
    let range := nth 0 parts EmptyString in
    let step := nth 1 parts EmptyString in
    let stepValue := Js.parseInt step in
    if String.eqb range "*" then Some (Js.rem_is_zero currentValue stepValue)
    else None
  else None.

(** The rules below the step block: ranges, lists, single values. *)
Definition laterRules (cronField : string) (currentValue : Z) : bool :=
  if Js.includes_char "-" cronField then
    let bounds := map Js.parseInt (Js.split "-" cronField) in
    Js.in_range currentValue (nth 0 bounds None) (nth 1 bounds None)
  else if Js.includes_char "," cronField then
    let values := map Js.parseInt (Js.split "," cronField) in
    existsb (fun x => Js.num_eq x currentValue) values
  else Js.num_eq (Js.parseInt cronField) currentValue.

Definition matchCronField (cronField : string) (currentValue min max : Z) : bool :=
  if String.eqb cronField "*" then true
  else match stepRule cronField currentValue with
       | Some b => b
       | None => laterRules cronField currentValue
       end.

Definition shouldRunBackup (cronSchedule : string) (now : DateParts) : bool :=
  match Js.split " " cronSchedule with
  | [minute; hour; dayOfMonth; month; dayOfWeek] =>
      let matchMinute := matchCronField minute (getMinutes now) 0 59 in
      let matchHour := matchCronField hour (getHours now) 0 23 in
      let matchDay := matchCronField dayOfMonth (getDate now) 1 31 in
      let matchMonth := matchCronField month (getMonth now + 1) 1 12 in
      let matchDayOfWeek := matchCronField dayOfWeek (getDay now) 0 6 in
      matchMinute && matchHour && matchDay && matchMonth && matchDayOfWeek
  | _ => false
  end.

End Scheduler.

(** ** Effects: a trace of external calls, exceptions, divergence *)

(** What a JavaScript [throw] carries: an instance of [Error] with its
    message, or any other value. *)
Inductive Thrown :=
| JsError (message : string)
| NonError (shown : string).

Definition Buffer := list Byte.byte.

(** The two ways [backupFile] moves an object. *)
Inductive Strategy := Buffered | Staged.

(** [BackupMetrics] of src/slack.ts. *)
Record BackupMetrics := {
  totalFiles : Z;
  successCount : Z;
  skipCount : Z;
  errorCount : Z;
  duration : Z;
  totalSize : Z;
  startTime : Z;
  endTime : Z
}.

(** The calls that leave the process, and the log lines that tell the
    branches of the code apart. *)
Inductive Event :=
| EvMkdir (dir : string)                      (* mkdir(tempDir, recursive) *)
| EvStorageList (path : string)               (* storage.from(bucket).list(path) *)
| EvListFailed (path : string)                (* "Error listing path" / "Error processing path" *)
| EvFoundFolder (fullPath : string)           (* "Found folder" *)
| EvNoFiles                                   (* "No files found to backup" *)
| EvBatch (number : Z) (width : nat)          (* "Processing batch n (w files)" *)
| EvProcessing (path : string)                (* "Processing: path" *)
| EvProbe (key : string)                      (* ListObjectsV2, Prefix key, MaxKeys 1 *)
| EvSkipExisting (path : string)              (* "Skipping (already exists in S3)" *)
| EvStrategy (how : Strategy) (path : string) (* "Downloading from Supabase" / "Downloading to temp file" *)
| EvDownload (path : string)                  (* storage.from(bucket).download(path) *)
| EvPutBuffer (key : string)                  (* PutObject *)
| EvBufferFailed                              (* "Buffer method failed, trying file method" *)
| EvWriteFile (tempFilePath : string)         (* writeFile(tempFilePath, buffer) *)
| EvUploadFile (tempFilePath key : string)    (* stat, createReadStream, Upload.done *)
| EvRm (recursive : bool) (target : string)   (* rm(target, { recursive, force }) *)
| EvCleanupWarning                            (* "Warning: Could not clean up temp directory" *)
| EvFileError (path : string)                 (* "Error backing up path" *)
| EvNotify (metrics : BackupMetrics)          (* slack.sendBackupNotification(metrics) *)
| EvBackupFailed.                             (* "Backup failed with error" *)

Inductive Result (A : Type) :=
| Done (a : A)
| Threw (e : Thrown)
| Diverged.
Arguments Done {A} a.
Arguments Threw {A} e.
Arguments Diverged {A}.

(** A computation is its result together with the events it produced, in
    order. *)
Definition M (A : Type) : Type := Result A * list Event.

Definition ret {A} (a : A) : M A := (Done a, []).
Definition throw {A} (e : Thrown) : M A := (Threw e, []).
Definition diverge {A} : M A := (Diverged, []).
Definition emit (ev : Event) : M unit := (Done tt, [ev]).

Definition bind {A B} (m : M A) (k : A -> M B) : M B :=
  match m with
  | (Done a, t) => let '(r, t') := k a in (r, t ++ t')
  | (Threw e, t) => (Threw e, t)
  | (Diverged, t) => (Diverged, t)
  end.

(** [try { m } catch (error) { h error }]. *)
Definition try_catch {A} (m : M A) (h : Thrown -> M A) : M A :=
  match m with
  | (Threw e, t) => let '(r, t') := h e in (r, t ++ t')
  | other => other
  end.

(** An external call that returns nothing, and one that returns a value. *)
Definition call (ev : Event) (answer : option Thrown) : M unit :=
  (match answer with None => Done tt | Some e => Threw e end, [ev]).

Definition call_val {A} (ev : Event) (answer : Thrown + A) : M A :=
  (match answer with inr a => Done a | inl e => Threw e end, [ev]).

Definition result_of {A} (m : M A) : Result A := fst m.
Definition trace_of {A} (m : M A) : list Event := snd m.

Declare Scope eff_scope.
Delimit Scope eff_scope with eff.
Notation "'let*' x ':=' m 'in' k" := (bind m (fun x => k))
  (at level 10, x name, m at level 100, k at level 200) : eff_scope.
Notation "m '>>' k" := (bind m (fun _ => k))
  (at level 90, right associativity) : eff_scope.
Local Open Scope eff_scope.

(** ** src/config.ts *)

Module Config.

Record SupabaseConfig := {
  url : string;
  anonKey : string;
  serviceKey : option string;
  bucketName : string;
  audioPath : option string
}.

Record S3Config := {
  s3BucketName : string;
  accessKeyId : string;
  secretAccessKey : string;
  region : string;
  prefix : option string
}.

Record BackupConfig := {
  supabase : SupabaseConfig;
  s3 : S3Config;
  cronSchedule : string;
  tempDir : string;
  fileExtensions : list string;
  batchSize : Z;
  slackWebhookUrl : option string
}.

End Config.

(** ** The world outside the process *)

(** An entry of a listing ([FileObject] of supabase-js). Of the metadata
    object the code reads the [size] field and counts the keys; [size] is a
    number when present, the other fields are kept as strings. *)
Record Metadata := {
  md_size : option Z;
  md_other : gmap string string
}.

Record FileObject := {
  fo_name : string;
  fo_id : option string;
  fo_created_at : option string;
  fo_updated_at : option string;
  fo_metadata : option Metadata
}.

(** The answer of [storage.list]: [{ data, error }], or an exception. *)
Inductive ListAnswer :=
| ListResponse (data : option (list FileObject)) (error : option string)
| ListThrows (e : Thrown).

Record Env := {
  existsSync : string -> bool;
  mkdir : string -> option Thrown;
  storage_list : string -> ListAnswer;
  (** [storage_download k p]: the call number [k] (from 0) that a transfer
      makes for the object [p]; a timeout is an [Error] like any other. *)
  storage_download : nat -> string -> Thrown + Buffer;
  (** ListObjectsV2 on a key prefix: the length of [Contents], or a failure
      (a timeout included). *)
  s3_list : string -> Thrown + Z;
  s3_put : string -> Buffer -> option Thrown;
  s3_upload : string -> string -> option Thrown;
  fs_writeFile : string -> Buffer -> option Thrown;
  fs_rm : bool -> string -> option Thrown;
  date_now_start : Z;
  date_now_end : Z
}.

(** ** src/supabase.ts *)

Module Supabase.

(** [Object.keys(metadata).length]. *)
Definition keys_length (md : Metadata) : nat :=
  ((match md_size md with Some _ => 1 | None => 0 end) + base.size (md_other md))%nat.

(** [!metadata.size]: the field is missing, or it is the number zero. *)
Definition size_falsy (md : Metadata) : bool :=
  match md_size md with
  | Some z => z =? 0
  | None => true
  end.

(** [!item.metadata || Object.keys(item.metadata).length === 0 ||
    !item.metadata.size] *)
Definition classifyFolder (item : FileObject) : bool :=
  match fo_metadata item with
  | None => true
  | Some md => (keys_length md =? 0)%nat || size_falsy md
  end.

Record StorageFile := {
  name : string;
  id : option string;
  path : string;
  isFolder : bool;
  created_at : string;
  updated_at : string;
  size : Z;
  metadata : option Metadata
}.

(** [currentPath ? `${currentPath}/${item.name}` : item.name] *)
Definition fullPath (currentPath itemName : string) : string :=
  if String.eqb currentPath EmptyString then itemName
  else currentPath +:+ "/" +:+ itemName.

(** [item.metadata?.size || 0] *)
Definition sizeOf (item : FileObject) : Z :=
  match fo_metadata item with
  | Some md => match md_size md with Some z => z | None => 0 end
  | None => 0
  end.

Definition toStorageFile (currentPath : string) (item : FileObject) : StorageFile :=
  {| name := fo_name item;
     id := fo_id item;
     path := fullPath currentPath (fo_name item);
     isFolder := false;
     created_at := default EmptyString (fo_created_at item);
     updated_at := default EmptyString (fo_updated_at item);
     size := sizeOf item;
     metadata := fo_metadata item |}.

(** The [for (const item of data)] loop: folders are pushed onto
    [foldersToProcess], files onto [allFiles]. *)
Fixpoint processItems (currentPath : string) (data : list FileObject)
    (foldersToProcess : list string) (allFiles : list StorageFile)
    : M (list string * list StorageFile) :=
  match data with
  | [] => ret (foldersToProcess, allFiles)
  | item :: rest =>
      let fp := fullPath currentPath (fo_name item) in
      if classifyFolder item then
        emit (EvFoundFolder fp) >>
        processItems currentPath rest (foldersToProcess ++ [fp]) allFiles
      else
        processItems currentPath rest foldersToProcess
          (allFiles ++ [toStorageFile currentPath item])
  end.

(** One turn of the [while] loop for a path that was not listed before:
    the [try] block with its [continue]s. An error answer, an exception
    and an empty answer all leave the queue and the result as they are. *)
Definition listOne (env : Env) (currentPath : string)
    (foldersToProcess : list string) (allFiles : list StorageFile)
    : M (list string * list StorageFile) :=
  emit (EvStorageList currentPath) >>
  match storage_list env currentPath with
  | ListThrows _ =>
      emit (EvListFailed currentPath) >> ret (foldersToProcess, allFiles)
  | ListResponse _ (Some _) =>
      emit (EvListFailed currentPath) >> ret (foldersToProcess, allFiles)
  | ListResponse None None => ret (foldersToProcess, allFiles)
  | ListResponse (Some []) None => ret (foldersToProcess, allFiles)
  | ListResponse (Some data) None =>
      processItems currentPath data foldersToProcess allFiles
  end.

(** The [while (foldersToProcess.length > 0)] loop. Nothing bounds the
    number of folders a bucket can report, so the loop runs on fuel and
    [Diverged] stands for running out of it. *)
Fixpoint listLoop (env : Env) (fuel : nat) (foldersToProcess : list string)
    (processedFolders : gset string) (allFiles : list StorageFile)
    : M (list StorageFile) :=
  match foldersToProcess with
  | [] => ret allFiles
  | currentPath :: queue =>
      match fuel with
      | O => diverge
      | S fuel' =>
          if decide (currentPath ∈ processedFolders) then
            listLoop env fuel' queue processedFolders allFiles
          else
            let* st := listOne env currentPath queue allFiles in
            listLoop env fuel' (fst st) (processedFolders ∪ {[currentPath]}) (snd st)
      end
  end.

Definition listAllFiles (env : Env) (fuel : nat) : M (list StorageFile) :=
  listLoop env fuel [EmptyString] ∅ [].

(** [downloadFile]: the answer of the storage client, a timeout after 60 s
    being one of the errors; the error is logged and thrown again. *)
Definition downloadFile (env : Env) (attempt : nat) (filePath : string) : M Buffer :=
  call_val (EvDownload filePath) (storage_download env attempt filePath).

End Supabase.

(** ** src/s3.ts *)

Module S3.

(** [this.prefix ? `${this.prefix}/${filePath}` : filePath] *)
Definition generateS3Key (cfg : Config.S3Config) (filePath : string) : string :=
  match Config.prefix cfg with
  | Some p => if String.eqb p EmptyString then filePath else p +:+ "/" +:+ filePath
  | None => filePath
  end.

(** [fileExists] never throws: an error or a timeout of the probe is
    answered [false]. *)
Definition fileExists (env : Env) (cfg : Config.S3Config) (filePath : string) : M bool :=
  let s3Key := generateS3Key cfg filePath in
  try_catch
    (let* contents := call_val (EvProbe s3Key) (s3_list env s3Key) in
     ret (0 <? contents))
    (fun _ => ret false).

Definition uploadBuffer (env : Env) (cfg : Config.S3Config)
    (buffer : Buffer) (filePath : string) : M unit :=
  let s3Key := generateS3Key cfg filePath in
  call (EvPutBuffer s3Key) (s3_put env s3Key buffer).

Definition uploadFile (env : Env) (cfg : Config.S3Config)
    (localFilePath filePath : string) : M unit :=
  let s3Key := generateS3Key cfg filePath in
  call (EvUploadFile localFilePath s3Key) (s3_upload env localFilePath s3Key).

End S3.

(** ** src/backup.ts *)

Module Backup.

Import Supabase.

(** The three counters that the closures of [backup] increment. *)
Record Counters := {
  c_success : Z;
  c_skip : Z;
  c_error : Z
}.

Definition zeroCounters : Counters :=
  {| c_success := 0; c_skip := 0; c_error := 0 |}.
Definition incSuccess (c : Counters) : Counters :=
  {| c_success := c_success c + 1; c_skip := c_skip c; c_error := c_error c |}.
Definition incSkip (c : Counters) : Counters :=
  {| c_success := c_success c; c_skip := c_skip c + 1; c_error := c_error c |}.
Definition incError (c : Counters) : Counters :=
  {| c_success := c_success c; c_skip := c_skip c; c_error := c_error c + 1 |}.

(** [100 * 1024 * 1024] *)
Definition bufferLimit : Z := 100 * 1024 * 1024.

(** [file.size && file.size < 100 * 1024 * 1024]: a size of zero is falsy. *)
Definition smallEnough (file : StorageFile) : bool :=
  negb (size file =? 0) && (size file <? bufferLimit).

(** [file.path.replace(/\//g, "_")] *)
Definition tempFileName (file : StorageFile) : string :=
  Js.replace_all "/" "_" (path file).

(** [path.join(tempDir, tempFileName)], without the normalisation of dots
    and doubled separators that Node applies. *)
Definition tempFilePath (cfg : Config.BackupConfig) (file : StorageFile) : string :=
  Config.tempDir cfg +:+ "/" +:+ tempFileName file.

(** [Math.round((endTime - startTime) / 1000)] on whole milliseconds. *)
Definition roundSeconds (ms : Z) : Z := (ms + 500) / 1000.

(** The [BackupMetrics] object built at the end of [backup]; the total size
    is [allFiles.reduce((sum, file) => sum + file.size, 0)]. *)
Definition buildMetrics (allFiles : list StorageFile) (c : Counters)
    (startTime endTime : Z) : BackupMetrics :=
  {| totalFiles := Z.of_nat (length allFiles);
     successCount := c_success c;
     skipCount := c_skip c;
     errorCount := c_error c;
     duration := roundSeconds (endTime - startTime);
     totalSize := fold_left (fun sum file => sum + size file) allFiles 0;
     startTime := startTime;
     endTime := endTime |}.

Section WithWorld.

Variable env : Env.
Variable cfg : Config.BackupConfig.

Definition rmTemp (target : string) : M unit :=
  call (EvRm false target) (fs_rm env false target).

(** Method 1 of [backupFile]: download into a buffer and upload it in one
    call; any failure is caught and answered [false]. *)
Definition bufferMethod (file : StorageFile) : M bool :=
  try_catch
    (emit (EvStrategy Buffered (path file)) >>
     let* buffer := downloadFile env 0 (path file) in
     S3.uploadBuffer env (Config.s3 cfg) buffer (path file) >>
     ret true)
    (fun _ => emit EvBufferFailed >> ret false).

(** Method 2 of [backupFile]: download, write the temp file, upload from
    it, remove it; on an error remove it and throw the error again.
    [attempt] counts the downloads this transfer made before. *)
Definition fileMethod (attempt : nat) (file : StorageFile) : M unit :=
  let tmp := tempFilePath cfg file in
  try_catch
    (emit (EvStrategy Staged (path file)) >>
     let* buffer := downloadFile env attempt (path file) in
     call (EvWriteFile tmp) (fs_writeFile env tmp buffer) >>
     S3.uploadFile env (Config.s3 cfg) tmp (path file) >>
     rmTemp tmp)
    (fun error =>
       try_catch (rmTemp tmp) (fun _ => ret tt) >>
       throw error).

Definition backupFile (file : StorageFile) : M unit :=
  emit (EvProcessing (path file)) >>
  let* exists_ := S3.fileExists env (Config.s3 cfg) (path file) in
  if exists_ then
    emit (EvSkipExisting (path file)) >>
    throw (JsError "File already exists")
  else
    let* uploaded :=
      if smallEnough file then bufferMethod file else ret false in
    if uploaded then ret tt
    else fileMethod (if smallEnough file then 1 else 0) file.

Definition ensureTempDir : M unit :=
  if existsSync env (Config.tempDir cfg) then ret tt
  else call (EvMkdir (Config.tempDir cfg)) (mkdir env (Config.tempDir cfg)).

Definition cleanupTempDir : M unit :=
  try_catch
    (call (EvRm true (Config.tempDir cfg)) (fs_rm env true (Config.tempDir cfg)))
    (fun _ => emit EvCleanupWarning).

(** [error instanceof Error && error.message.includes("already exists")] *)
Definition saysAlreadyExists (error : Thrown) : bool :=
  match error with
  | JsError message => Js.includes "already exists" message
  | NonError _ => false
  end.

(** The closure mapped over a batch: it never throws. *)
Definition transfer (file : StorageFile) (c : Counters) : M Counters :=
  try_catch
    (backupFile file >> ret (incSuccess c))
    (fun error =>
       if saysAlreadyExists error then ret (incSkip c)
       else emit (EvFileError (path file)) >> ret (incError c)).

(** [await Promise.all(batch.map(...))]. The closures of one batch run
    interleaved at their awaits; the answers of the world depend on the
    object only, so every interleaving gives each object the same events
    and the same counter, and the model runs them one after the other. *)
Fixpoint runBatch (batch : list StorageFile) (c : Counters) : M Counters :=
  match batch with
  | [] => ret c
  | file :: rest =>
      let* c' := transfer file c in
      runBatch rest c'
  end.

(** [for (let i = 0; i < allFiles.length; i += batchSize)]: with a batch
    size that is not positive the loop does not end, hence the fuel. *)
Fixpoint batchLoop (fuel : nat) (allFiles : list StorageFile) (i : Z)
    (c : Counters) : M Counters :=
  if i <? Z.of_nat (length allFiles) then
    match fuel with
    | O => diverge
    | S fuel' =>
        let batch :=
          Js.slice allFiles i
            (Z.min (i + Config.batchSize cfg) (Z.of_nat (length allFiles))) in
        emit (EvBatch (i / Config.batchSize cfg + 1) (length batch)) >>
        let* c' := runBatch batch c in
        batchLoop fuel' allFiles (i + Config.batchSize cfg) c'
    end
  else ret c.

(** [slack.sendBackupNotification(metrics)]: the notifier catches its own
    failures, the call always returns. *)
Definition sendBackupNotification (metrics : BackupMetrics) : M unit :=
  emit (EvNotify metrics).

Definition backup (fuel : nat) : M unit :=
  let startTime := date_now_start env in
  try_catch
    (ensureTempDir >>
     let* allFiles := listAllFiles env fuel in
     if (length allFiles =? 0)%nat then
       emit EvNoFiles >> ret tt
     else
       let* c := batchLoop fuel allFiles 0 zeroCounters in
       cleanupTempDir >>
       let endTime := date_now_end env in
       sendBackupNotification (buildMetrics allFiles c startTime endTime))
    (fun error => emit EvBackupFailed >> throw error).

End WithWorld.

End Backup.

(** ** Notions the statements are written in

    Observations on traces and on the world, and, where the wording of the
    spec and the code part ways, the wording of the spec. *)

Module SpecWords.

(** *** The schedule *)

(** The spec's wording, not the code: the fields of a schedule expression
    are its maximal runs of characters that are not white space. *)
Fixpoint splitOnWhitespace (s : string) : list string :=
  match s with
  | EmptyString => [EmptyString]
  | String a s' =>
      if Js.is_ws a then EmptyString :: splitOnWhitespace s'
      else match splitOnWhitespace s' with
           | [] => [String a EmptyString]
           | h :: t => String a h :: t
           end
  end.

Definition whitespaceFields (s : string) : list string :=
  filter (fun f => f ≠ EmptyString) (splitOnWhitespace s).

(** The five field matches of an expression whose fields are [fields]. *)
Definition fiveFieldsMatch (fields : list string) (now : Scheduler.DateParts) : Prop :=
  ∃ minute hour dayOfMonth month dayOfWeek,
    fields = [minute; hour; dayOfMonth; month; dayOfWeek] ∧
    Scheduler.matchCronField minute (Scheduler.getMinutes now) 0 59 = true ∧
    Scheduler.matchCronField hour (Scheduler.getHours now) 0 23 = true ∧
    Scheduler.matchCronField dayOfMonth (Scheduler.getDate now) 1 31 = true ∧
    Scheduler.matchCronField month (Scheduler.getMonth now + 1) 1 12 = true ∧
    Scheduler.matchCronField dayOfWeek (Scheduler.getDay now) 0 6 = true.

(** The schedule claim in the spec's words: true exactly when there are
    five white-space separated fields and all of them match. *)
Definition shouldRunAsStated (cronSchedule : string) (now : Scheduler.DateParts) : Prop :=
  Scheduler.shouldRunBackup cronSchedule now = true ↔
  fiveFieldsMatch (whitespaceFields cronSchedule) now.

(** A concrete numeric part of a schedule field: decimal digits only. *)
Definition isDecimalDigit (a : ascii) : bool :=
  let n := nat_of_ascii a in (48 <=? n)%nat && (n <=? 57)%nat.

Fixpoint allDigits (s : string) : bool :=
  match s with
  | EmptyString => true
  | String a s' => isDecimalDigit a && allDigits s'
  end.

(** *** One transfer *)

(** The strategy a transfer uses, read off its log lines. *)
Definition usesStrategy (how : Strategy) (env : Env) (cfg : Config.BackupConfig)
    (file : Supabase.StorageFile) : Prop :=
  In (EvStrategy how (Supabase.path file)) (trace_of (Backup.backupFile env cfg file)).








(** A text that contains another one somewhere. *)
Definition mentions (sub s : string) : Prop :=
  ∃ pre post, s = pre +:+ sub +:+ post.

(** Events that read an object from the source or write one to the
    destination or to the staging directory. *)
Definition movesData (ev : Event) : bool :=
  match ev with
  | EvDownload _ | EvPutBuffer _ | EvWriteFile _ | EvUploadFile _ _ => true
  | _ => false
  end.

(** *** The enumeration *)

(** The entries that listing a path yields: those of a successful,
    non-empty answer. *)
Definition listedItems (env : Env) (currentPath : string) : list FileObject :=
  match storage_list env currentPath with
  | ListResponse (Some data) None => data
  | _ => []
  end.

(** The full paths of the folders among some entries, and the objects made
    from the files among them. *)
Definition folderPaths (currentPath : string) (data : list FileObject) : list string :=
  map (fun item => Supabase.fullPath currentPath (fo_name item))
      (List.filter Supabase.classifyFolder data).

Definition fileRecords (currentPath : string) (data : list FileObject)
    : list Supabase.StorageFile :=
  map (Supabase.toStorageFile currentPath)
      (List.filter (fun item => negb (Supabase.classifyFolder item)) data).

(** The folders found directly under a path. *)
Definition children (env : Env) (cp : string) : list string :=
  folderPaths cp (listedItems env cp).

(** A finite bucket: a list of paths that holds the root and, with every
    path, the folders found under it. *)
Definition closedBucket (env : Env) (paths : list string) : Prop :=
  In EmptyString paths ∧ ∀ cp, In cp paths → incl (children env cp) paths.

(** The queue entries still to come from the paths not yet listed, and the
    number of loop turns that surely suffices for a finite bucket. *)
Definition pendingWork (env : Env) (paths : list string) (processed : gset string) : nat :=
  list_sum (map (fun cp => if decide (cp ∈ processed) then 0%nat
                           else length (children env cp)) paths).

Definition listingBound (env : Env) (paths : list string) : nat :=
  S (pendingWork env paths ∅).

(** The folder rule in the spec's words: a folder is an entry without
    metadata or whose metadata has no size field. *)
Definition folderAsStated (item : FileObject) : Prop :=
  Supabase.classifyFolder item = true ↔
  (fo_metadata item = None ∨
   ∃ md, fo_metadata item = Some md ∧ md_size md = None).

(** Events of the enumeration. *)
Definition isListingEvent (ev : Event) : bool :=
  match ev with
  | EvStorageList _ | EvListFailed _ | EvFoundFolder _ => true
  | _ => false
  end.

(** *** Batches and the whole run *)

(** Sequential groups in the spec's words: a group is announced and all of
    its transfers are run before the next group starts. *)
Fixpoint runGroups (env : Env) (cfg : Config.BackupConfig) (number : Z)
    (groups : list (list Supabase.StorageFile)) (c : Backup.Counters)
    : M Backup.Counters :=
  match groups with
  | [] => ret c
  | group :: rest =>
      emit (EvBatch number (length group)) >>
      let* c' := Backup.runBatch env cfg group c in
      runGroups env cfg (number + 1) rest c'
  end.

(** The objects counted so far. *)
Definition counted (c : Backup.Counters) : Z :=
  Backup.c_success c + Backup.c_skip c + Backup.c_error c.

(** Events of the work on batches and objects. *)
Definition isBatchWork (ev : Event) : bool :=
  match ev with
  | EvBatch _ _ | EvProcessing _ | EvProbe _ | EvSkipExisting _
  | EvStrategy _ _ | EvDownload _ | EvPutBuffer _ | EvBufferFailed
  | EvWriteFile _ | EvUploadFile _ _ | EvRm _ _ | EvFileError _ => true
  | _ => false
  end.

(** The empty-run claim in the spec's words: the run results in a
    [RunMetrics] whose counts are all zero. *)
Definition emptyRunAsStated (env : Env) (cfg : Config.BackupConfig) (fuel : nat) : Prop :=
  ∃ m, In (EvNotify m) (trace_of (Backup.backup env cfg fuel)) ∧
       totalFiles m = 0 ∧ successCount m = 0 ∧ skipCount m = 0 ∧
       errorCount m = 0 ∧ totalSize m = 0.

(** The cleanup claim in the spec's words: a run that completes, normally
    or with an exception, has removed the staging directory recursively. *)
Definition stagingRemovedAsStated (env : Env) (cfg : Config.BackupConfig) (fuel : nat) : Prop :=
  result_of (Backup.backup env cfg fuel) ≠ Diverged →
  In (EvRm true (Config.tempDir cfg)) (trace_of (Backup.backup env cfg fuel)).

End SpecWords.

(** ** Concrete worlds used by the examples *)

Module Fixtures.

Definition audioMeta (bytes : Z) : Metadata :=
  {| md_size := Some bytes; md_other := {[ "mimetype" := "audio/mpeg" ]} |}.

Definition entry (n : string) (md : option Metadata) : FileObject :=
  {| fo_name := n; fo_id := None; fo_created_at := None;
     fo_updated_at := None; fo_metadata := md |}.

(** A world in which nothing exists at the destination and every call
    succeeds; the bucket is given by its listing. *)
Definition calmEnv (listing : string -> ListAnswer) : Env :=
  {| existsSync := fun _ => false;
     mkdir := fun _ => None;
     storage_list := listing;
     storage_download := fun _ _ => inr [];
     s3_list := fun _ => inr 0;
     s3_put := fun _ _ => None;
     s3_upload := fun _ _ => None;
     fs_writeFile := fun _ _ => None;
     fs_rm := fun _ _ => None;
     date_now_start := 1000;
     date_now_end := 3600 |}.

(** The bucket [{a/, a/b.mp3, c.wav}]. *)
Definition treeListing (p : string) : ListAnswer :=
  if String.eqb p EmptyString then
    ListResponse (Some [entry "a" None; entry "c.wav" (Some (audioMeta 10))]) None
  else if String.eqb p "a" then
    ListResponse (Some [entry "b.mp3" (Some (audioMeta 200000000))]) None
  else ListResponse (Some []) None.

Definition emptyListing (p : string) : ListAnswer := ListResponse (Some []) None.


(** A bucket whose only entry is the zero-byte file [empty.wav]. *)
Definition zeroByteListing (p : string) : ListAnswer :=
  if String.eqb p EmptyString then
    ListResponse (Some [entry "empty.wav" (Some (audioMeta 0))]) None
  else ListResponse (Some []) None.

Definition cfg0 : Config.BackupConfig :=
  {| Config.supabase :=
       {| Config.url := "https://project.supabase.co"; Config.anonKey := "anon";
          Config.serviceKey := None; Config.bucketName := "audio";
          Config.audioPath := None |};
     Config.s3 :=
       {| Config.s3BucketName := "backups"; Config.accessKeyId := "id";
          Config.secretAccessKey := "secret"; Config.region := "us-east-1";
          Config.prefix := Some "supabase-backups/audio" |};
     Config.cronSchedule := "0 2 * * *";
     Config.tempDir := "/tmp/supabase-audio-backups";
     Config.fileExtensions := [".mp3"; ".wav"];
     Config.batchSize := 5;
     Config.slackWebhookUrl := None |}.

(** The calm world, except that the upload of a staged file is refused. *)
Definition refusingEnv (message : string) : Env :=
  {| existsSync := fun _ => false;
     mkdir := fun _ => None;
     storage_list := emptyListing;
     storage_download := fun _ _ => inr [];
     s3_list := fun _ => inr 0;
     s3_put := fun _ _ => None;
     s3_upload := fun _ _ => Some (JsError message);
     fs_writeFile := fun _ _ => None;
     fs_rm := fun _ _ => None;
     date_now_start := 1000;
     date_now_end := 3600 |}.

(** The calm world with one object already at the destination. *)
Definition presentEnv : Env :=
  {| existsSync := fun _ => false;
     mkdir := fun _ => None;
     storage_list := emptyListing;
     storage_download := fun _ _ => inr [];
     s3_list := fun _ => inr 1;
     s3_put := fun _ _ => None;
     s3_upload := fun _ _ => None;
     fs_writeFile := fun _ _ => None;
     fs_rm := fun _ _ => None;
     date_now_start := 1000;
     date_now_end := 3600 |}.

(** The calm world with a staging directory that cannot be removed. *)
Definition stickyEnv (listing : string -> ListAnswer) : Env :=
  {| existsSync := fun _ => false;
     mkdir := fun _ => None;
     storage_list := listing;
     storage_download := fun _ _ => inr [];
     s3_list := fun _ => inr 0;
     s3_put := fun _ _ => None;
     s3_upload := fun _ _ => None;
     fs_writeFile := fun _ _ => None;
     fs_rm := fun recursive _ =>
       if recursive then Some (JsError "EBUSY: resource busy or locked") else None;
     date_now_start := 1000;
     date_now_end := 3600 |}.

(** [cfg0] with another batch size, and with another allow-list. *)
Definition cfgBatch (k : Z) : Config.BackupConfig :=
  {| Config.supabase := Config.supabase cfg0;
     Config.s3 := Config.s3 cfg0;
     Config.cronSchedule := Config.cronSchedule cfg0;
     Config.tempDir := Config.tempDir cfg0;
     Config.fileExtensions := Config.fileExtensions cfg0;
     Config.batchSize := k;
     Config.slackWebhookUrl := Config.slackWebhookUrl cfg0 |}.

Definition cfgExtensions (exts : list string) : Config.BackupConfig :=
  {| Config.supabase := Config.supabase cfg0;
     Config.s3 := Config.s3 cfg0;
     Config.cronSchedule := Config.cronSchedule cfg0;
     Config.tempDir := Config.tempDir cfg0;
     Config.fileExtensions := exts;
     Config.batchSize := Config.batchSize cfg0;
     Config.slackWebhookUrl := Config.slackWebhookUrl cfg0 |}.

Definition mkFile (p : string) (bytes : Z) : Supabase.StorageFile :=
  {| Supabase.name := p; Supabase.id := None; Supabase.path := p;
     Supabase.isFolder := false; Supabase.created_at := EmptyString;
     Supabase.updated_at := EmptyString; Supabase.size := bytes;
     Supabase.metadata := Some (audioMeta bytes) |}.

(** 02:00 on a Thursday, the first of January. *)
Definition twoAM : Scheduler.DateParts :=
  {| Scheduler.getMinutes := 0; Scheduler.getHours := 2; Scheduler.getDate := 1;
     Scheduler.getMonth := 0; Scheduler.getDay := 4 |}.

End Fixtures.


(** ** More of the sources *)

(** *** More of JavaScript's strings *)

Module JsText.

(** [s.toLowerCase()] on ASCII letters; other bytes are left alone. *)
Definition lowerChar (a : ascii) : ascii :=
  let n := nat_of_ascii a in
  if (65 <=? n)%nat && (n <=? 90)%nat then ascii_of_nat (n + 32) else a.

Fixpoint toLowerCase (s : string) : string :=
  match s with
  | EmptyString => EmptyString
  | String a s' => String (lowerChar a) (toLowerCase s')
  end.

(** [s.trim()] for the ASCII white space: [trimEnd] drops the white space
    at the end, [Js.skip_ws] the white space in front. *)
Fixpoint trimEnd (s : string) : string :=
  match s with
  | EmptyString => EmptyString
  | String a s' =>
      let r := trimEnd s' in
      if Js.is_ws a && String.eqb r EmptyString then EmptyString
      else String a r
  end.

Definition trim (s : string) : string := trimEnd (Js.skip_ws s).

(** What [parseInt(s, 10)] returns: NaN, an integer of magnitude up to
    [2^53], which a double holds as it is written, or a double beyond that
    range, whose value (a rounded one, or Infinity) is not modelled. *)
Inductive ParsedInt :=
| NotANumber
| SafeInt (n : Z)
| BeyondSafe.

Definition maxExact : Z := 9007199254740992.

(** [parseInt(s, 10)]: with the radix given, a leading [0x] is not a radix
    mark and the number read is the zero in front of it. *)
Definition parseInt10 (s : string) : ParsedInt :=
  let '(neg, s2) := Js.strip_sign (Js.skip_ws s) in
  match Js.digits 10 s2 None with
  | Some n =>
      if n <=? maxExact then SafeInt (if neg then - n else n) else BeyondSafe
  | None => NotANumber
  end.

(** [arr.pop()] on the result of a [split]: its last element. *)
Definition pop (parts : list string) : string :=
  List.last parts EmptyString.

(** Every byte is an ASCII character; on such strings the bytes of the
    model are the code units of JavaScript. *)
Fixpoint isAscii (s : string) : bool :=
  match s with
  | EmptyString => true
  | String a s' => (nat_of_ascii a <? 128)%nat && isAscii s'
  end.

End JsText.

(** *** src/supabase.ts: [getContentType] *)

Module ContentType.

(** What [contentTypes[extension] || "application/octet-stream"] evaluates
    to: a MIME string, or, for the two lower-case names that every object
    literal inherits, the inherited value itself. *)
Inductive Value :=
| Mime (s : string)
| ObjectConstructor     (* contentTypes["constructor"] *)
| ObjectPrototype.      (* contentTypes["__proto__"] *)

Definition contentTypes : list (string * string) :=
  [ ("mp3", "audio/mpeg"); ("wav", "audio/wav"); ("m4a", "audio/mp4");
    ("aac", "audio/aac"); ("ogg", "audio/ogg"); ("flac", "audio/flac");
    ("webm", "audio/webm"); ("wma", "audio/x-ms-wma");
    ("mp4", "video/mp4"); ("avi", "video/x-msvideo");
    ("mkv", "video/x-matroska"); ("mov", "video/quicktime");
    ("wmv", "video/x-ms-wmv"); ("flv", "video/x-flv");
    ("jpg", "image/jpeg"); ("jpeg", "image/jpeg"); ("png", "image/png");
    ("gif", "image/gif"); ("bmp", "image/bmp"); ("webp", "image/webp");
    ("svg", "image/svg+xml"); ("ico", "image/x-icon");
    ("pdf", "application/pdf"); ("doc", "application/msword");
    ("docx", "application/vnd.openxmlformats-officedocument.wordprocessingml.document");
    ("xls", "application/vnd.ms-excel");
    ("xlsx", "application/vnd.openxmlformats-officedocument.spreadsheetml.sheet");
    ("ppt", "application/vnd.ms-powerpoint");
    ("pptx", "application/vnd.openxmlformats-officedocument.presentationml.presentation");
    ("txt", "text/plain"); ("csv", "text/csv"); ("json", "application/json");
    ("xml", "application/xml"); ("html", "text/html"); ("css", "text/css");
    ("js", "application/javascript"); ("ts", "application/typescript");
    ("zip", "application/zip"); ("rar", "application/x-rar-compressed");
    ("7z", "application/x-7z-compressed"); ("tar", "application/x-tar");
    ("gz", "application/gzip") ].

Fixpoint lookup (key : string) (table : list (string * string)) : option string :=
  match table with
  | [] => None
  | (k, v) :: rest => if String.eqb k key then Some v else lookup key rest
  end.

(** [contentTypes[extension || ""] || "application/octet-stream"] *)
Definition ofExtension (extension : string) : Value :=
  match lookup extension contentTypes with
  | Some mime => Mime mime
  | None =>
      if String.eqb extension "constructor" then ObjectConstructor
      else if String.eqb extension "__proto__" then ObjectPrototype
      else Mime "application/octet-stream"
  end.

Definition getContentType (fileName : string) : Value :=
  let extension := JsText.pop (Js.split "." (JsText.toLowerCase fileName)) in
  ofExtension extension.

End ContentType.

(** *** src/config.ts: the loaders *)

Module ConfigLoad.

(** [process.env] is a [gmap string string]: a variable is a string or
    missing. *)

Definition truthy (v : option string) : bool :=
  match v with
  | Some s => negb (String.eqb s EmptyString)
  | None => false
  end.

(** [a || b] where both may be undefined. *)
Definition orElse (a b : option string) : option string :=
  if truthy a then a else b.

(** [v || "default"] *)
Definition orDefault (v : option string) (d : string) : string :=
  match orElse v (Some d) with
  | Some s => s
  | None => d
  end.

Definition supabaseIncomplete : string :=
  "Supabase configuration incomplete. Please set SUPABASE_URL and either SUPABASE_ANON_KEY or SUPABASE_SERVICE_KEY".

Definition s3Incomplete : string :=
  "S3 configuration incomplete. Please set S3_BUCKET_NAME, S3_ACCESS_KEY_ID, and S3_SECRET_ACCESS_KEY".

Definition loadSupabaseConfig (env : gmap string string) : Thrown + Config.SupabaseConfig :=
  let url := env !! "SUPABASE_URL" in
  let anonKey := orElse (env !! "SUPABASE_ANON_KEY") (env !! "SUPABASE_SERVICE_KEY") in
  let serviceKey := env !! "SUPABASE_SERVICE_KEY" in
  let bucketName := orDefault (env !! "SUPABASE_BUCKET_NAME") "audio" in
  let audioPath := orDefault (env !! "SUPABASE_AUDIO_PATH") EmptyString in
  if negb (truthy url) || (negb (truthy anonKey) && negb (truthy serviceKey)) then
    inl (JsError supabaseIncomplete)
  else
    (* Prefer service key if available for full access *)
    let key := orElse serviceKey anonKey in
    inr {| Config.url := default EmptyString url;
           Config.anonKey := default EmptyString key;
           Config.serviceKey := serviceKey;
           Config.bucketName := bucketName;
           Config.audioPath := Some audioPath |}.

Definition loadS3Config (env : gmap string string) : Thrown + Config.S3Config :=
  let bucketName := env !! "S3_BUCKET_NAME" in
  let accessKeyId := env !! "S3_ACCESS_KEY_ID" in
  let secretAccessKey := env !! "S3_SECRET_ACCESS_KEY" in
  let region := orDefault (env !! "S3_REGION") "us-east-1" in
  let prefix := orDefault (env !! "S3_PREFIX") "supabase-backups/audio" in
  if negb (truthy bucketName) || negb (truthy accessKeyId)
     || negb (truthy secretAccessKey) then
    inl (JsError s3Incomplete)
  else
    inr {| Config.s3BucketName := default EmptyString bucketName;
           Config.accessKeyId := default EmptyString accessKeyId;
           Config.secretAccessKey := default EmptyString secretAccessKey;
           Config.region := region;
           Config.prefix := Some prefix |}.

(** What [loadConfig] returns: [BackupConfig], with the batch size as
    [parseInt] gives it: NaN when [BATCH_SIZE] does not start with a
    number. *)
Record LoadedConfig := {
  lc_supabase : Config.SupabaseConfig;
  lc_s3 : Config.S3Config;
  lc_cronSchedule : string;
  lc_tempDir : string;
  lc_fileExtensions : list string;
  lc_batchSize : JsText.ParsedInt;
  lc_slackWebhookUrl : option string
}.

Definition loadConfig (env : gmap string string) : Thrown + LoadedConfig :=
  match loadSupabaseConfig env with
  | inl e => inl e
  | inr supabase =>
      match loadS3Config env with
      | inl e => inl e
      | inr s3 =>
          let cronSchedule := orDefault (env !! "BACKUP_CRON") "0 2 * * *" in
          let tempDir := orDefault (env !! "TEMP_DIR") "/tmp/supabase-audio-backups" in
          let fileExtensions :=
            map JsText.trim
              (Js.split ","
                 (orDefault (env !! "FILE_EXTENSIONS")
                    ".mp3,.wav,.m4a,.aac,.ogg,.flac")) in
          let batchSize := JsText.parseInt10 (orDefault (env !! "BATCH_SIZE") "5") in
          let slackWebhookUrl := env !! "SLACK_WEBHOOK_URL" in
          inr {| lc_supabase := supabase;
                 lc_s3 := s3;
                 lc_cronSchedule := cronSchedule;
                 lc_tempDir := tempDir;
                 lc_fileExtensions := fileExtensions;
                 lc_batchSize := batchSize;
                 lc_slackWebhookUrl := slackWebhookUrl |}
      end
  end.

(** The configuration as the run reads it, when the batch size is an
    integer that was read as it is written. *)
Definition toBackupConfig (lc : LoadedConfig) : option Config.BackupConfig :=
  match lc_batchSize lc with
  | JsText.SafeInt k =>
      Some {| Config.supabase := lc_supabase lc;
              Config.s3 := lc_s3 lc;
              Config.cronSchedule := lc_cronSchedule lc;
              Config.tempDir := lc_tempDir lc;
              Config.fileExtensions := lc_fileExtensions lc;
              Config.batchSize := k;
              Config.slackWebhookUrl := lc_slackWebhookUrl lc |}
  | _ => None
  end.

(** The key the constructor of [SupabaseStorage] hands to [createClient]:
    [config.serviceKey || config.anonKey]. *)
Definition clientKey (config : Config.SupabaseConfig) : string :=
  match Config.serviceKey config with
  | Some s => if String.eqb s EmptyString then Config.anonKey config else s
  | None => Config.anonKey config
  end.

End ConfigLoad.

(** *** Notions for the further properties *)

Module Observe.

(** The number a string of decimal digits stands for. *)
Fixpoint decimalFrom (acc : Z) (s : string) : Z :=
  match s with
  | EmptyString => acc
  | String a s' => decimalFrom (acc * 10 + (Z.of_nat (nat_of_ascii a) - 48)) s'
  end.

Definition decimalValue (s : string) : Z := decimalFrom 0 s.

(** A number as it is written in a schedule: digits, and at least one. *)
Definition isNumber (s : string) : bool :=
  SpecWords.allDigits s && negb (String.eqb s EmptyString).

(** [parts.join(sep)] for a one-character separator. *)
Fixpoint joinWith (sep : ascii) (parts : list string) : string :=
  match parts with
  | [] => EmptyString
  | [p] => p
  | p :: rest => p +:+ String sep (joinWith sep rest)
  end.

(** The objects whose transfer was started, in order. *)
Fixpoint processedPaths (tr : list Event) : list string :=
  match tr with
  | [] => []
  | EvProcessing p :: rest => p :: processedPaths rest
  | _ :: rest => processedPaths rest
  end.

(** The paths that were listed, in order. *)
Fixpoint listedPaths (tr : list Event) : list string :=
  match tr with
  | [] => []
  | EvStorageList p :: rest => p :: listedPaths rest
  | _ :: rest => listedPaths rest
  end.

(** How the batch closure files the end of a transfer. *)
Inductive Outcome := Copied | Skipped | Failed.

Definition outcomeOf (env : Env) (cfg : Config.BackupConfig)
    (file : Supabase.StorageFile) : Outcome :=
  match result_of (Backup.backupFile env cfg file) with
  | Done _ => Copied
  | Threw e => if Backup.saysAlreadyExists e then Skipped else Failed
  | Diverged => Failed
  end.

Definition outcome_eqb (a b : Outcome) : bool :=
  match a, b with
  | Copied, Copied | Skipped, Skipped | Failed, Failed => true
  | _, _ => false
  end.

Definition countOutcome (env : Env) (cfg : Config.BackupConfig) (o : Outcome)
    (files : list Supabase.StorageFile) : Z :=
  Z.of_nat (length (List.filter (fun f => outcome_eqb (outcomeOf env cfg f) o) files)).

(** The number of events of a kind. *)
Definition countEvents (kind : Event -> bool) (tr : list Event) : nat :=
  length (List.filter kind tr).

Definition isDownload (ev : Event) : bool :=
  match ev with EvDownload _ => true | _ => false end.
Definition isPutBuffer (ev : Event) : bool :=
  match ev with EvPutBuffer _ => true | _ => false end.
Definition isWriteFile (ev : Event) : bool :=
  match ev with EvWriteFile _ => true | _ => false end.
Definition isUploadFile (ev : Event) : bool :=
  match ev with EvUploadFile _ _ => true | _ => false end.
Definition isProbe (ev : Event) : bool :=
  match ev with EvProbe _ => true | _ => false end.

(** An event of a transfer that names nothing but the object's own path,
    key and staging file. *)
Definition ownEvent (cfg : Config.BackupConfig) (file : Supabase.StorageFile)
    (ev : Event) : bool :=
  let p := Supabase.path file in
  let key := S3.generateS3Key (Config.s3 cfg) p in
  let tmp := Backup.tempFilePath cfg file in
  match ev with
  | EvProcessing q | EvSkipExisting q | EvDownload q | EvFileError q => String.eqb q p
  | EvStrategy _ q => String.eqb q p
  | EvProbe k | EvPutBuffer k => String.eqb k key
  | EvWriteFile t => String.eqb t tmp
  | EvUploadFile t k => String.eqb t tmp && String.eqb k key
  | EvRm recursive t => negb recursive && String.eqb t tmp
  | EvBufferFailed => true
  | _ => false
  end.

(** The staged attempt went through: download, write, upload and removal
    all succeeded. [attempt] is the number of the download. *)
Definition stagedSucceeds (env : Env) (cfg : Config.BackupConfig) (attempt : nat)
    (file : Supabase.StorageFile) : Prop :=
  ∃ buffer,
    storage_download env attempt (Supabase.path file) = inr buffer ∧
    fs_writeFile env (Backup.tempFilePath cfg file) buffer = None ∧
    s3_upload env (Backup.tempFilePath cfg file)
      (S3.generateS3Key (Config.s3 cfg) (Supabase.path file)) = None ∧
    fs_rm env false (Backup.tempFilePath cfg file) = None.

(** The buffered attempt went through: download and PutObject succeeded. *)
Definition bufferedSucceeds (env : Env) (cfg : Config.BackupConfig)
    (file : Supabase.StorageFile) : Prop :=
  ∃ buffer,
    storage_download env 0 (Supabase.path file) = inr buffer ∧
    s3_put env (S3.generateS3Key (Config.s3 cfg) (Supabase.path file)) buffer = None.

(** The hand-over of the metrics to the notifier, and a trace without
    one. *)
Definition isNotify (ev : Event) : bool :=
  match ev with EvNotify _ => true | _ => false end.

Definition quiet (tr : list Event) : Prop :=
  Forall (fun ev => isNotify ev = false) tr.

(** The required variables of the two loaders are set and not empty. *)
Definition supabaseComplete (env : gmap string string) : bool :=
  ConfigLoad.truthy (env !! "SUPABASE_URL") &&
  (ConfigLoad.truthy (env !! "SUPABASE_ANON_KEY") ||
   ConfigLoad.truthy (env !! "SUPABASE_SERVICE_KEY")).

Definition s3Complete (env : gmap string string) : bool :=
  ConfigLoad.truthy (env !! "S3_BUCKET_NAME") &&
  ConfigLoad.truthy (env !! "S3_ACCESS_KEY_ID") &&
  ConfigLoad.truthy (env !! "S3_SECRET_ACCESS_KEY").

End Observe.

(** *** More concrete worlds *)

Module MoreFixtures.

(** A world in which PutObject is refused and the staging file cannot be
    removed. *)
Definition brittleEnv : Env :=
  {| existsSync := fun _ => false;
     mkdir := fun _ => None;
     storage_list := Fixtures.emptyListing;
     storage_download := fun _ _ => inr [];
     s3_list := fun _ => inr 0;
     s3_put := fun _ _ => Some (JsError "SlowDown: please reduce your request rate");
     s3_upload := fun _ _ => None;
     fs_writeFile := fun _ _ => None;
     fs_rm := fun _ _ => Some (JsError "EPERM: operation not permitted");
     date_now_start := 1000;
     date_now_end := 3600 |}.

(** A world in which the probe of the destination times out. *)
Definition timeoutEnv : Env :=
  {| existsSync := fun _ => false;
     mkdir := fun _ => None;
     storage_list := Fixtures.emptyListing;
     storage_download := fun _ _ => inr [];
     s3_list := fun _ => inl (JsError "fileExists timeout after 15s");
     s3_put := fun _ _ => None;
     s3_upload := fun _ _ => None;
     fs_writeFile := fun _ _ => None;
     fs_rm := fun _ _ => None;
     date_now_start := 1000;
     date_now_end := 3600 |}.

(** A world in which the staging directory cannot be created. *)
Definition readOnlyEnv : Env :=
  {| existsSync := fun _ => false;
     mkdir := fun _ => Some (JsError "EROFS: read-only file system");
     storage_list := Fixtures.treeListing;
     storage_download := fun _ _ => inr [];
     s3_list := fun _ => inr 0;
     s3_put := fun _ _ => None;
     s3_upload := fun _ _ => None;
     fs_writeFile := fun _ _ => None;
     fs_rm := fun _ _ => None;
     date_now_start := 1000;
     date_now_end := 3600 |}.

(** The variables every deployment has to set. *)
Definition requiredVars : gmap string string :=
  {[ "SUPABASE_URL" := "https://project.supabase.co";
     "SUPABASE_ANON_KEY" := "anon";
     "S3_BUCKET_NAME" := "backups";
     "S3_ACCESS_KEY_ID" := "id";
     "S3_SECRET_ACCESS_KEY" := "secret" ]}.

(** The required variables with a service key as well, and what
    [loadSupabaseConfig] makes of them. *)
Definition serviceVars : gmap string string :=
  <[ "SUPABASE_SERVICE_KEY" := "service" ]> requiredVars.

Definition serviceLoaded : Config.SupabaseConfig :=
  {| Config.url := "https://project.supabase.co"; Config.anonKey := "service";
     Config.serviceKey := Some "service"; Config.bucketName := "audio";
     Config.audioPath := Some EmptyString |}.

(** The required variables with an empty [S3_PREFIX], and what
    [loadS3Config] makes of them. *)
Definition emptyPrefixVars : gmap string string :=
  <[ "S3_PREFIX" := EmptyString ]> requiredVars.

Definition emptyPrefixLoaded : Config.S3Config :=
  {| Config.s3BucketName := "backups"; Config.accessKeyId := "id";
     Config.secretAccessKey := "secret"; Config.region := "us-east-1";
     Config.prefix := Some "supabase-backups/audio" |}.

(** The required variables with [BATCH_SIZE=0], and what [loadConfig] makes
    of them. *)
Definition zeroBatchVars : gmap string string :=
  <[ "BATCH_SIZE" := "0" ]> requiredVars.

Definition zeroBatchLoaded : ConfigLoad.LoadedConfig :=
  {| ConfigLoad.lc_supabase :=
       {| Config.url := "https://project.supabase.co"; Config.anonKey := "anon";
          Config.serviceKey := None; Config.bucketName := "audio";
          Config.audioPath := Some EmptyString |};
     ConfigLoad.lc_s3 := emptyPrefixLoaded;
     ConfigLoad.lc_cronSchedule := "0 2 * * *";
     ConfigLoad.lc_tempDir := "/tmp/supabase-audio-backups";
     ConfigLoad.lc_fileExtensions := [".mp3"; ".wav"; ".m4a"; ".aac"; ".ogg"; ".flac"];
     ConfigLoad.lc_batchSize := JsText.SafeInt 0;
     ConfigLoad.lc_slackWebhookUrl := None |}.

(** Half past two on the same day. *)
Definition halfPastTwo : Scheduler.DateParts :=
  {| Scheduler.getMinutes := 30; Scheduler.getHours := 2; Scheduler.getDate := 1;
     Scheduler.getMonth := 0; Scheduler.getDay := 4 |}.

End MoreFixtures.

(** * Properties *)

(** ** The schedule evaluator *)

Section SchedulerFacts.

Import Scheduler.

Lemma split_app_sep c a b :
  Js.includes_char c a = false →
  Js.split c (a +:+ String c b) = a :: Js.split c b.
Proof.
  induction a as [|x a IH]; simpl; intros H.
  - now rewrite Ascii.eqb_refl.
  - apply orb_false_iff in H as [Hx Ha].
    rewrite Hx, (IH Ha). reflexivity.
Qed.

Lemma includes_char_app c a b :
  Js.includes_char c (a +:+ b) = Js.includes_char c a || Js.includes_char c b.
Proof.
  induction a as [|x a IH]; simpl; [reflexivity|].
  now rewrite IH, orb_assoc.
Qed.

Lemma skip_ws_app_stop a c b :
  Js.is_ws c = false →
  Js.skip_ws (a +:+ String c b) = Js.skip_ws a +:+ String c b.
Proof.
  intros Hc. induction a as [|x a IH]; simpl.
  - now rewrite Hc.
  - destruct (Js.is_ws x); [exact IH | reflexivity].
Qed.

Lemma digits_app_stop radix a c b acc :
  Js.digit_val radix c = None →
  Js.digits radix (a +:+ String c b) acc = Js.digits radix a acc.
Proof.
  intros Hc. revert acc. induction a as [|x a IH]; simpl; intros acc.
  - now rewrite Hc.
  - destruct (Js.digit_val radix x); [apply IH | reflexivity].
Qed.

Lemma digit_val_slash radix : Js.digit_val radix "/" = None.
Proof.
  unfold Js.digit_val. simpl. now rewrite !andb_false_r.
Qed.

Lemma strip_radix_app_slash s b :
  Js.strip_radix (s +:+ String "/" b) =
  (fst (Js.strip_radix s), snd (Js.strip_radix s) +:+ String "/" b).
Proof.
  destruct s as [|c [|d r]]; simpl.
  - destruct b; reflexivity.
  - now rewrite andb_false_r.
  - destruct (Ascii.eqb c "0" && (Ascii.eqb d "x" || Ascii.eqb d "X")); reflexivity.
Qed.

Lemma parse_tail_slash s b neg :
  (let '(radix, s3) := Js.strip_radix (s +:+ String "/" b) in
   match Js.digits radix s3 None with
   | Some n => Some (if neg : bool then - n else n)
   | None => None
   end) =
  (let '(radix, s3) := Js.strip_radix s in
   match Js.digits radix s3 None with
   | Some n => Some (if neg then - n else n)
   | None => None
   end).
Proof.
  rewrite strip_radix_app_slash.
  destruct (Js.strip_radix s) as [radix s3]; simpl.
  now rewrite digits_app_stop by apply digit_val_slash.
Qed.

(** [parseInt] stops reading at a slash: what follows it is never seen. *)
Lemma parseInt_stops_at_slash a b :
  Js.parseInt (a +:+ String "/" b) = Js.parseInt a.
Proof.
  unfold Js.parseInt.
  rewrite skip_ws_app_stop by reflexivity.
  destruct (Js.skip_ws a) as [|x r].
  - simpl. destruct b; reflexivity.
  - unfold Js.strip_sign; simpl.
    destruct (Ascii.eqb x "-"); [exact (parse_tail_slash r b true)|].
    destruct (Ascii.eqb x "+"); [exact (parse_tail_slash r b false)|].
    exact (parse_tail_slash (String x r) b false).
Qed.

Lemma allDigits_excludes c a :
  SpecWords.isDecimalDigit c = false →
  SpecWords.allDigits a = true →
  Js.includes_char c a = false.
Proof.
  intros Hc. induction a as [|x a IH]; simpl; [reflexivity|].
  intros H. apply andb_true_iff in H as [Hx Ha].
  rewrite (IH Ha), orb_false_r.
  destruct (Ascii.eqb_spec x c) as [->|]; [congruence | reflexivity].
Qed.

Lemma eqb_star_slash a b : String.eqb (a +:+ String "/" b) "*" = false.
Proof.
  destruct a as [|x [|y a]]; simpl; try reflexivity.
  - destruct x as [[] [] [] [] [] [] [] []]; reflexivity.
  - destruct x as [[] [] [] [] [] [] [] []]; reflexivity.
Qed.

(** A field [a/b] whose part before the slash is not the wildcard gets no
    step behaviour. *)
Lemma stepRule_concrete a b v :
  Js.includes_char "/" a = false →
  a ≠ "*" →
  stepRule (a +:+ String "/" b) v = None.
Proof.
  intros Ha Hne. unfold stepRule.
  rewrite includes_char_app; simpl. rewrite orb_true_r.
  rewrite split_app_sep by exact Ha. simpl.
  destruct (String.eqb_spec a "*"); [contradiction | reflexivity].
Qed.

Lemma stepRule_wildcard b v :
  stepRule (String "*" (String "/" b)) v =
  Some (Js.rem_is_zero v (Js.parseInt (hd EmptyString (Js.split "/" b)))).
Proof.
  unfold stepRule. simpl Js.includes_char. cbv iota.
  change (String "*" (String "/" b)) with ("*" +:+ String "/" b).
  rewrite split_app_sep by reflexivity.
  destruct (Js.split "/" b); reflexivity.
Qed.

(** C6 (as amended). [shouldRunBackup] is true exactly when splitting the
    expression at every single space character gives five fields and each
    field matches its calendar component (minute, hour, day of month, month
    counted from 1, day of week); with any other number of fields the answer
    is [false]. The function is total: it never throws. *)
Theorem shouldRun_is_and_of_five_fields cronSchedule now :
  (shouldRunBackup cronSchedule now = true ↔
   SpecWords.fiveFieldsMatch (Js.split " " cronSchedule) now) ∧
  (length (Js.split " " cronSchedule) ≠ 5%nat →
   shouldRunBackup cronSchedule now = false).
Proof.
  unfold shouldRunBackup, SpecWords.fiveFieldsMatch.
  destruct (Js.split " " cronSchedule)
    as [|f1 [|f2 [|f3 [|f4 [|f5 [|f6 rest]]]]]]; split;
    try (split; [discriminate | intros (?&?&?&?&?&?&_); discriminate]);
    try (intros _; reflexivity).
  - rewrite !andb_true_iff. split.
    + intros [[[[H1 H2] H3] H4] H5]. now exists f1, f2, f3, f4, f5.
    + intros (m&h&d&mo&w&E&H1&H2&H3&H4&H5).
      injection E as -> -> -> -> ->. tauto.
  - simpl. intros H. now contradiction H.
Qed.

(** C6, the claim as worded fails: with two spaces between the first two
    fields there are five white-space separated fields and all of them match
    at 02:00, yet the code sees six fields and answers [false]. *)
Lemma shouldRun_double_space_counterexample :
  ¬ SpecWords.shouldRunAsStated "0  2 * * *" Fixtures.twoAM.
Proof.
  unfold SpecWords.shouldRunAsStated. intros [_ H].
  assert (E : shouldRunBackup "0  2 * * *" Fixtures.twoAM = true).
  { apply H. exists "0", "2", "*", "*", "*". repeat split; reflexivity. }
  vm_compute in E. discriminate E.
Qed.

(** C7. For every field [a/b], [a] being the part before the first slash:
    the step test [value % b === 0] decides the match exactly when [a] is the
    wildcard; for any other [a] the step block gives no result and the match
    is the one of the later rules (range, list, single value). For numeric
    [a] and [b] these read [a/b] as the single value [a], so that [b] plays
    no role. *)
Theorem step_check_only_for_wildcard a b v min max :
  Js.includes_char "/" a = false →
  matchCronField (a +:+ "/" +:+ b) v min max =
    (if String.eqb a "*"
     then Js.rem_is_zero v (Js.parseInt (hd EmptyString (Js.split "/" b)))
     else laterRules (a +:+ "/" +:+ b) v) ∧
  (a ≠ "*" → stepRule (a +:+ "/" +:+ b) v = None) ∧
  (SpecWords.allDigits a = true → SpecWords.allDigits b = true →
   matchCronField (a +:+ "/" +:+ b) v min max = Js.num_eq (Js.parseInt a) v).
Proof.
  intros Hslash.
  change (a +:+ "/" +:+ b) with (a +:+ String "/" b).
  assert (Hmatch : a ≠ "*" →
                   matchCronField (a +:+ String "/" b) v min max
                   = laterRules (a +:+ String "/" b) v).
  { intros Hstar. unfold matchCronField.
    now rewrite eqb_star_slash, stepRule_concrete. }
  split; [|split].
  - destruct (String.eqb_spec a "*") as [->|Hstar]; [|now apply Hmatch].
    unfold matchCronField.
    change ("*" +:+ String "/" b) with (String "*" (String "/" b)).
    rewrite stepRule_wildcard. reflexivity.
  - intros Hstar. now apply stepRule_concrete.
  - intros Ha Hb.
    assert (Hstar : a ≠ "*") by (intros ->; discriminate Ha).
    rewrite (Hmatch Hstar). unfold laterRules.
    rewrite !includes_char_app. simpl.
    rewrite (allDigits_excludes "-" a), (allDigits_excludes "-" b),
            (allDigits_excludes "," a), (allDigits_excludes "," b)
      by (reflexivity || assumption).
    simpl. now rewrite parseInt_stops_at_slash.
Qed.

(** C7 at the field [10/5] and the minute 15: [*/5] would fire, [10/5] does
    not, because it is read as the single value 10. *)
Lemma step_check_only_for_wildcard_witness :
  matchCronField "10/5" 15 0 59 = laterRules "10/5" 15 ∧
  matchCronField "10/5" 15 0 59 = false ∧
  matchCronField "*/5" 15 0 59 = true.
Proof.
  destruct (step_check_only_for_wildcard "10" "5" 15 0 59) as (H1 & _ & H3);
    [reflexivity|].
  split; [exact H1|]. split; [|reflexivity].
  exact (H3 eq_refl eq_refl).
Defined.

End SchedulerFacts.

(** ** One transfer *)

Section TransferFacts.

Import Supabase Backup.

Variable env : Env.
Variable cfg : Config.BackupConfig.

(** Unfold a transfer and split on every answer of the world. *)
Ltac run_transfer :=
  unfold bufferMethod, fileMethod, rmTemp, downloadFile, S3.uploadBuffer,
    S3.uploadFile, call, call_val, try_catch, bind, ret, emit, throw;
  repeat match goal with
         | |- context [match ?x with _ => _ end] =>
             lazymatch x with
             | storage_download _ _ _ => destruct x
             | s3_put _ _ _ => destruct x
             | s3_upload _ _ _ => destruct x
             | fs_writeFile _ _ _ => destruct x
             | fs_rm _ _ _ => destruct x
             end; simpl
         end.


(** [includes] finds exactly the texts that contain the needle. *)
Lemma prefix_spec sub : ∀ s, String.prefix sub s = true ↔ ∃ post, s = sub +:+ post.
Proof.
  induction sub as [|a sub IH]; intros s.
  - split; [intros _; now exists s | intros _; destruct s; reflexivity].
  - destruct s as [|b s]; simpl.
    + split; [discriminate | intros (post & H); discriminate H].
    + destruct (ascii_dec a b) as [->|Hab].
      * rewrite IH. split; intros (post & H); exists post.
        -- now rewrite H.
        -- now injection H.
      * split; [discriminate|]. intros (post & H). injection H as H _. congruence.
Qed.

Lemma includes_unfold sub s :
  Js.includes sub s =
  String.prefix sub s ||
  match s with EmptyString => false | String _ s' => Js.includes sub s' end.
Proof. destruct s; reflexivity. Qed.

Lemma includes_spec sub : ∀ s, Js.includes sub s = true ↔ SpecWords.mentions sub s.
Proof.
  unfold SpecWords.mentions.
  induction s as [|b s IH]; rewrite includes_unfold, orb_true_iff, prefix_spec.
  - split.
    + intros [(post & H)|H]; [|discriminate H]. now exists EmptyString, post.
    + intros (pre & post & H). left. destruct pre; [now exists post | discriminate H].
  - rewrite IH. split.
    + intros [(post & H)|(pre & post & H)].
      * now exists EmptyString, post.
      * exists (String b pre), post. simpl. now rewrite H.
    + intros (pre & post & H). destruct pre as [|a pre].
      * left. now exists post.
      * right. injection H as _ H. now exists pre, post.
Qed.

(** The test of the batch closure, [error instanceof Error &&
    error.message.includes("already exists")], in words. *)
Lemma saysAlreadyExists_spec e :
  saysAlreadyExists e = true ↔
  ∃ message, e = JsError message ∧ SpecWords.mentions "already exists" message.
Proof.
  destruct e as [message|shown]; simpl.
  - rewrite includes_spec. split; [intros H; now exists message|].
    intros (m & [= <-] & H). exact H.
  - split; [discriminate|]. intros (m & H & _). discriminate H.
Qed.

(** The probe always answers, whatever the destination does. *)
Lemma fileExists_total filePath :
  S3.fileExists env (Config.s3 cfg) filePath =
  (Done (match s3_list env (S3.generateS3Key (Config.s3 cfg) filePath) with
         | inr contents => 0 <? contents
         | inl _ => false
         end),
   [EvProbe (S3.generateS3Key (Config.s3 cfg) filePath)]).
Proof.
  unfold S3.fileExists, call_val, try_catch, bind, ret.
  destruct (s3_list env _); reflexivity.
Qed.




Lemma backupFile_present file :
  result_of (S3.fileExists env (Config.s3 cfg) (path file)) = Done true →
  backupFile env cfg file =
  (Threw (JsError "File already exists"),
   [EvProcessing (path file);
    EvProbe (S3.generateS3Key (Config.s3 cfg) (path file));
    EvSkipExisting (path file)]).
Proof.
  rewrite fileExists_total. unfold result_of; simpl. intros Hprobe.
  injection Hprobe as Hprobe.
  unfold backupFile. rewrite fileExists_total, Hprobe. reflexivity.
Qed.

(** A transfer always comes to an end. *)
Lemma backupFile_returns file : result_of (backupFile env cfg file) ≠ Diverged.
Proof.
  unfold backupFile. rewrite fileExists_total.
  destruct (match s3_list env _ with inr _ => _ | inl _ => _ end);
    [discriminate|].
  destruct (smallEnough file); run_transfer; discriminate.
Qed.

(** The closure of a batch turns the end of a transfer into one counter. *)
Lemma transfer_classifies file c :
  transfer env cfg file c =
  match backupFile env cfg file with
  | (Done _, tr) => (Done (incSuccess c), tr)
  | (Threw e, tr) =>
      if saysAlreadyExists e then (Done (incSkip c), tr)
      else (Done (incError c), tr ++ [EvFileError (path file)])
  | (Diverged, tr) => (Diverged, tr)
  end.
Proof.
  unfold transfer, try_catch, bind, ret, emit.
  destruct (backupFile env cfg file) as [[[]|e|] tr]; simpl;
    try destruct (saysAlreadyExists e); simpl; now rewrite ?app_nil_r.
Qed.

Lemma transfer_counts_one file c :
  ∃ c' tr, transfer env cfg file c = (Done c', tr) ∧
           (c' = incSuccess c ∨ c' = incSkip c ∨ c' = incError c).
Proof.
  rewrite transfer_classifies.
  pose proof (backupFile_returns file) as Hr.
  destruct (backupFile env cfg file) as [[[]|e|] tr]; simpl in *.
  - eauto.
  - destruct (saysAlreadyExists e); eauto 6.
  - now contradiction Hr.
Qed.

(** C4. When the destination answers the probe with at least one object
    under the object's key, the transfer stops right after the probe:
    [fileExists] is [true], [backupFile] throws "File already exists", the
    batch closure counts the object as skipped, and the events are the log
    line, the probe and the skip notice: nothing is read from the source,
    nothing is written to the destination or to the staging directory. *)
Theorem existing_object_skipped_untouched file c contents :
  s3_list env (S3.generateS3Key (Config.s3 cfg) (path file)) = inr contents →
  0 < contents →
  result_of (S3.fileExists env (Config.s3 cfg) (path file)) = Done true ∧
  backupFile env cfg file =
    (Threw (JsError "File already exists"),
     [EvProcessing (path file);
      EvProbe (S3.generateS3Key (Config.s3 cfg) (path file));
      EvSkipExisting (path file)]) ∧
  result_of (transfer env cfg file c) = Done (incSkip c) ∧
  Forall (fun ev => SpecWords.movesData ev = false)
         (trace_of (transfer env cfg file c)).
Proof.
  intros Hlist Hpos.
  assert (Hprobe : result_of (S3.fileExists env (Config.s3 cfg) (path file))
                   = Done true).
  { rewrite fileExists_total, Hlist. unfold result_of; simpl.
    destruct (Z.ltb_spec 0 contents); [reflexivity | lia]. }
  split; [exact Hprobe|].
  pose proof (backupFile_present file Hprobe) as E.
  rewrite transfer_classifies, E. simpl.
  repeat split. repeat constructor.
Qed.

(** C9. The batch closure tells a skipped object from a failed one by the
    thrown value alone, whatever step of the transfer threw it. A transfer
    always returns or throws. When it returns, the object is counted as
    copied. When it throws an [Error] whose message contains the text
    "already exists" somewhere, the object is counted as skipped, nothing is
    logged, and the failure counter stays as it was. When it throws an
    [Error] whose message does not contain that text, or a value that is not
    an [Error], the object is counted as failed, the error is logged, and
    the skip counter stays as it was. *)
Theorem already_exists_message_counts_as_skip file c :
  result_of (backupFile env cfg file) ≠ Diverged ∧
  (result_of (backupFile env cfg file) = Done tt →
   transfer env cfg file c =
     (Done (incSuccess c), trace_of (backupFile env cfg file))) ∧
  (∀ message,
     result_of (backupFile env cfg file) = Threw (JsError message) →
     SpecWords.mentions "already exists" message →
     transfer env cfg file c =
       (Done (incSkip c), trace_of (backupFile env cfg file))) ∧
  (∀ message,
     result_of (backupFile env cfg file) = Threw (JsError message) →
     ¬ SpecWords.mentions "already exists" message →
     transfer env cfg file c =
       (Done (incError c),
        trace_of (backupFile env cfg file) ++ [EvFileError (path file)])) ∧
  (∀ shown,
     result_of (backupFile env cfg file) = Threw (NonError shown) →
     transfer env cfg file c =
       (Done (incError c),
        trace_of (backupFile env cfg file) ++ [EvFileError (path file)])) ∧
  (c_skip (incSkip c) = c_skip c + 1 ∧ c_error (incSkip c) = c_error c ∧
   c_success (incSkip c) = c_success c) ∧
  (c_error (incError c) = c_error c + 1 ∧ c_skip (incError c) = c_skip c ∧
   c_success (incError c) = c_success c).
Proof.
  split; [apply backupFile_returns|].
  rewrite transfer_classifies. unfold result_of, trace_of.
  destruct (backupFile env cfg file) as [[[]|e|] tr]; simpl.
  all: repeat split; try discriminate; try reflexivity.
  - intros message [= ->] Hm. simpl.
    apply includes_spec in Hm. now rewrite Hm.
  - intros message [= ->] Hm. simpl.
    destruct (Js.includes "already exists" message) eqn:E; [|reflexivity].
    apply includes_spec in E. contradiction.
  - intros shown [= ->]. reflexivity.
Qed.

End TransferFacts.

(** C4 at an object that is already at the destination. *)
Lemma existing_object_skipped_untouched_witness :
  result_of (Backup.transfer Fixtures.presentEnv Fixtures.cfg0
               (Fixtures.mkFile "c.wav" 10) Backup.zeroCounters)
  = Done (Backup.incSkip Backup.zeroCounters).
Proof.
  apply (existing_object_skipped_untouched Fixtures.presentEnv Fixtures.cfg0
           (Fixtures.mkFile "c.wav" 10) Backup.zeroCounters 1);
    reflexivity.
Defined.

(** C9 at a destination write that is refused with an "already exists"
    message: the object is absent, the staged upload throws, and the object
    is counted as skipped. *)
Lemma already_exists_message_counts_as_skip_witness :
  result_of (Backup.transfer
               (Fixtures.refusingEnv "PreconditionFailed: object already exists")
               Fixtures.cfg0 (Fixtures.mkFile "big.wav" 200000000)
               Backup.zeroCounters)
  = Done (Backup.incSkip Backup.zeroCounters).
Proof.
  destruct (already_exists_message_counts_as_skip
              (Fixtures.refusingEnv "PreconditionFailed: object already exists")
              Fixtures.cfg0 (Fixtures.mkFile "big.wav" 200000000)
              Backup.zeroCounters) as (_ & _ & Hskip & _).
  rewrite (Hskip "PreconditionFailed: object already exists");
    [reflexivity | reflexivity |].
  exists "PreconditionFailed: object ", EmptyString. reflexivity.
Defined.

(** ** The enumeration *)

Section ListingFacts.

Import Supabase SpecWords.

Variable env : Env.

Lemma classifyFolder_rule item :
  classifyFolder item = true ↔
  (fo_metadata item = None ∨
   ∃ md, fo_metadata item = Some md ∧
         (md_size md = None ∨ md_size md = Some 0)).
Proof.
  unfold classifyFolder, keys_length, size_falsy.
  destruct (fo_metadata item) as [md|]; [|tauto].
  destruct (md_size md) as [z|] eqn:Ez; simpl.
  - rewrite Z.eqb_eq. split.
    + intros ->. right. exists md. rewrite Ez. tauto.
    + intros [H|(md' & H & [H'|H'])]; try discriminate;
        injection H as <-; congruence.
  - rewrite orb_true_r. split; [|reflexivity].
    intros _. right. exists md. tauto.
Qed.

Lemma processItems_spec cp data q fs :
  processItems cp data q fs =
  (Done (q ++ folderPaths cp data, fs ++ fileRecords cp data),
   map EvFoundFolder (folderPaths cp data)).
Proof.
  revert q fs. unfold folderPaths, fileRecords.
  induction data as [|item data IH]; intros q fs; simpl.
  - now rewrite !app_nil_r.
  - destruct (classifyFolder item); simpl.
    + unfold bind, emit. rewrite IH. simpl. now rewrite <- app_assoc.
    + rewrite IH. now rewrite <- app_assoc.
Qed.

Lemma listOne_spec cp q fs :
  ∃ tl,
    listOne env cp q fs =
      (Done (q ++ folderPaths cp (listedItems env cp),
             fs ++ fileRecords cp (listedItems env cp)),
       EvStorageList cp :: tl) ∧
    (∀ p, ¬ In (EvStorageList p) tl) ∧
    (∀ fp, In (EvFoundFolder fp) tl ↔ In fp (folderPaths cp (listedItems env cp))) ∧
    Forall (fun ev => isListingEvent ev = true) tl.
Proof.
  unfold listOne, listedItems.
  destruct (storage_list env cp) as [[[|item data]|] [msg|]|e];
    try solve
      [ eexists; unfold bind, emit, ret, folderPaths, fileRecords; simpl;
        rewrite ?app_nil_r;
        split; [reflexivity|]; simpl;
        split; [intros p H; repeat destruct H as [H|H];
                first [contradiction | discriminate H]|];
        split; [intros fp; split; intros H; repeat destruct H as [H|H];
                first [contradiction | discriminate H]|];
        repeat constructor ].
  rewrite processItems_spec. unfold bind, emit. simpl.
  eexists. split; [reflexivity|].
  set (fps := folderPaths cp (item :: data)). clearbody fps.
  repeat split.
  - intros p H. apply in_map_iff in H as (? & H & _). discriminate H.
  - intros H. apply in_map_iff in H as (? & H & ?). now injection H as ->.
  - intros H. apply in_map_iff. eauto.
  - apply Forall_forall. intros ev H.
    apply list_elem_of_In, in_map_iff in H as (? & <- & _). reflexivity.
Qed.

Lemma listLoop_events fuel : ∀ q P fs,
  Forall (fun ev => isListingEvent ev = true) (trace_of (listLoop env fuel q P fs)).
Proof.
  induction fuel as [|fuel IH]; intros [|cp q] P fs; simpl; try constructor.
  destruct (decide (cp ∈ P)); [apply IH|].
  destruct (listOne_spec cp q fs) as (tl & -> & _ & _ & Htl).
  unfold bind. specialize (IH (q ++ folderPaths cp (listedItems env cp))
    (P ∪ {[cp]}) (fs ++ fileRecords cp (listedItems env cp))).
  simpl fst; simpl snd.
  destruct (listLoop env fuel _ _ _) as [r t']. unfold trace_of in *; simpl in *.
  constructor; [reflexivity|]. apply Forall_app. split; assumption.
Qed.

Lemma listLoop_sound fuel : ∀ q P fs files tr,
  listLoop env fuel q P fs = (Done files, tr) →
  (∀ f, In f files ↔
        In f fs ∨ ∃ cp, In (EvStorageList cp) tr ∧
                        In f (fileRecords cp (listedItems env cp))) ∧
  (∀ p, In p q → p ∈ P ∨ In (EvStorageList p) tr) ∧
  (∀ fp, In (EvFoundFolder fp) tr → fp ∈ P ∨ In (EvStorageList fp) tr) ∧
  (∀ fp, In (EvFoundFolder fp) tr ↔
         ∃ cp, In (EvStorageList cp) tr ∧
               In fp (folderPaths cp (listedItems env cp))).
Proof.
  induction fuel as [|fuel IH]; intros [|cp q] P fs files tr; simpl.
  - intros H. injection H as <- <-. simpl. firstorder.
  - discriminate.
  - intros H. injection H as <- <-. simpl. firstorder.
  - destruct (decide (cp ∈ P)) as [Hin|Hnin].
    + intros H. destruct (IH _ _ _ _ _ H) as (I1 & I2 & I3 & I4).
      repeat split; try assumption; try apply I1; try apply I4.
      intros p [<-|Hp]; [now left | now apply I2].
    + destruct (listOne_spec cp q fs) as (tl & -> & Hnl & Hff & _).
      unfold bind. simpl fst; simpl snd.
      destruct (listLoop env fuel _ _ _) as [r t'] eqn:E.
      intros H. injection H as -> <-.
      destruct (IH _ _ _ _ _ E) as (I1 & I2 & I3 & I4).
      assert (Hlisted : ∀ p, In (EvStorageList p) ((EvStorageList cp :: tl) ++ t')
                             ↔ p = cp ∨ In (EvStorageList p) t').
      { intros p. simpl. rewrite in_app_iff. split.
        - intros [H|[H|H]]; [injection H as ->; now left | now apply Hnl in H | now right].
        - intros [->|H]; [now left | right; now right]. }
      assert (Hfound : ∀ fp, In (EvFoundFolder fp) ((EvStorageList cp :: tl) ++ t')
                             ↔ In fp (folderPaths cp (listedItems env cp))
                               ∨ In (EvFoundFolder fp) t').
      { intros fp. simpl. rewrite in_app_iff, Hff. split.
        - intros [H|[H|H]]; [discriminate H | now left | now right].
        - intros [H|H]; right; [now left | now right]. }
      split; [|split; [|split]].
      * intros f. rewrite I1, in_app_iff. split.
        -- intros [[H|H]|(cp' & H1 & H2)].
           ++ now left.
           ++ right. exists cp. split; [apply Hlisted; now left | exact H].
           ++ right. exists cp'. split; [apply Hlisted; now right | exact H2].
        -- intros [H|(cp' & H1 & H2)]; [left; now left|].
           apply Hlisted in H1 as [->|H1]; [left; now right|].
           right. now exists cp'.
      * intros p [<-|Hp]; [right; apply Hlisted; now left|].
        destruct (I2 p) as [H|H]; [apply in_app_iff; now left| |].
        -- apply elem_of_union in H as [H|H]; [now left|].
           apply elem_of_singleton in H as ->. right. apply Hlisted. now left.
        -- right. apply Hlisted. now right.
      * intros fp H. apply Hfound in H.
        assert (H' : fp ∈ P ∪ {[cp]} ∨ In (EvStorageList fp) t').
        { destruct H as [H|H]; [apply I2, in_app_iff; now right | now apply I3]. }
        destruct H' as [H'|H'].
        -- apply elem_of_union in H' as [H'|H']; [now left|].
           apply elem_of_singleton in H' as ->. right. apply Hlisted. now left.
        -- right. apply Hlisted. now right.
      * intros fp. rewrite Hfound, I4. split.
        -- intros [H|(cp' & H1 & H2)].
           ++ exists cp. split; [apply Hlisted; now left | exact H].
           ++ exists cp'. split; [apply Hlisted; now right | exact H2].
        -- intros (cp' & H1 & H2). apply Hlisted in H1 as [->|H1]; [now left|].
           right. now exists cp'.
Qed.

Lemma pendingWork_mono paths (P : gset string) cp :
  (pendingWork env paths (P ∪ {[cp]}) <= pendingWork env paths P)%nat.
Proof.
  unfold pendingWork. induction paths as [|u paths IH]; simpl; [lia|].
  destruct (decide (u ∈ P ∪ {[cp]})) as [H1|H1];
    destruct (decide (u ∈ P)) as [H2|H2]; try lia.
  exfalso. apply H1. set_solver.
Qed.

Lemma pendingWork_step paths (P : gset string) cp :
  In cp paths → cp ∉ P →
  (pendingWork env paths (P ∪ {[cp]}) + length (children env cp)
   <= pendingWork env paths P)%nat.
Proof.
  unfold pendingWork. induction paths as [|u paths IH]; simpl; [intros []|].
  intros [->|Hin] Hnot.
  - pose proof (pendingWork_mono paths P cp) as Hm. unfold pendingWork in Hm.
    destruct (decide (cp ∈ P ∪ {[cp]})) as [_|H1]; [|exfalso; apply H1; set_solver].
    destruct (decide (cp ∈ P)); [contradiction|]. lia.
  - specialize (IH Hin Hnot).
    destruct (decide (u ∈ P ∪ {[cp]})) as [H1|H1];
      destruct (decide (u ∈ P)) as [H2|H2]; try lia.
    exfalso. apply H1. set_solver.
Qed.

Lemma listLoop_terminates paths :
  closedBucket env paths →
  ∀ fuel q P fs,
    (∀ p, In p q → In p paths) →
    (length q + pendingWork env paths P <= fuel)%nat →
    ∃ files tr, listLoop env fuel q P fs = (Done files, tr).
Proof.
  intros [_ Hclosed].
  induction fuel as [|fuel IH]; intros [|cp q] P fs Hq Hfuel; simpl in *;
    try (eexists _, _; reflexivity); try lia.
  destruct (decide (cp ∈ P)) as [Hin|Hnin].
  - apply IH; [intros p Hp; apply Hq; now right | lia].
  - destruct (listOne_spec cp q fs) as (tl & -> & _).
    unfold bind. simpl fst; simpl snd.
    destruct (IH (q ++ folderPaths cp (listedItems env cp)) (P ∪ {[cp]})
                 (fs ++ fileRecords cp (listedItems env cp)))
      as (files & tr & ->).
    + intros p Hp. apply in_app_iff in Hp as [Hp|Hp]; [apply Hq; now right|].
      apply (Hclosed cp); [apply Hq; now left | exact Hp].
    + rewrite length_app.
      pose proof (pendingWork_step paths P cp (Hq cp (or_introl eq_refl)) Hnin) as Hs.
      unfold children in Hs. lia.
    + eexists _, _. reflexivity.
Qed.


(** C5 (as amended). On a finite bucket the enumeration returns a result
    as soon as the fuel reaches the bound of the bucket; the bucket
    [{a/, a/b.mp3, c.wav}] enumerates to the two objects [c.wav] and
    [a/b.mp3]. An entry is taken for a folder exactly when it has no
    metadata, or its metadata has no size field, or the size is zero. The
    loop over the entries of a path pushes the full paths of the folders
    onto the queue and the objects made from the files onto the result;
    the full path is the bare name at the root and [parent/name] below it.
    And whenever the enumeration returns: the root was listed; every folder
    entry of a listed path was itself listed under its full path; every file
    entry of a listed path is in the result; and every object of the result
    is a file entry of a listed path, carries its full path and is not a
    folder. *)
Theorem enumeration_returns_files_only fuel :
  (∀ paths,
     closedBucket env paths → (listingBound env paths <= fuel)%nat →
     ∃ files tr, listAllFiles env fuel = (Done files, tr)) ∧
  (∃ f1 f2 tr',
     listAllFiles (Fixtures.calmEnv Fixtures.treeListing) 2 = (Done [f1; f2], tr') ∧
     path f1 = "c.wav" ∧ path f2 = "a/b.mp3") ∧
  (∀ item, classifyFolder item = true ↔
     (fo_metadata item = None ∨
      ∃ md, fo_metadata item = Some md ∧
            (md_size md = None ∨ md_size md = Some 0))) ∧
  (∀ cp data q fs,
     result_of (processItems cp data q fs) =
     Done (q ++ folderPaths cp data, fs ++ fileRecords cp data)) ∧
  (∀ n, fullPath EmptyString n = n) ∧
  (∀ cp n, cp ≠ EmptyString → fullPath cp n = cp +:+ "/" +:+ n) ∧
  (∀ files tr,
     listAllFiles env fuel = (Done files, tr) →
     In (EvStorageList EmptyString) tr ∧
     (∀ cp item,
        In (EvStorageList cp) tr → In item (listedItems env cp) →
        if classifyFolder item
        then In (EvStorageList (fullPath cp (fo_name item))) tr
        else In (toStorageFile cp item) files) ∧
     (∀ f, In f files →
        isFolder f = false ∧
        ∃ cp item,
          In (EvStorageList cp) tr ∧ In item (listedItems env cp) ∧
          classifyFolder item = false ∧ f = toStorageFile cp item ∧
          path f = fullPath cp (fo_name item))).
Proof.
  split.
  { intros paths Hclosed Hbound. unfold listAllFiles.
    apply (listLoop_terminates paths Hclosed).
    - intros p [<-|[]]. exact (proj1 Hclosed).
    - unfold listingBound in Hbound. simpl. lia. }
  split.
  { eexists _, _, _. split; [vm_compute; reflexivity|]. split; reflexivity. }
  split; [exact classifyFolder_rule|].
  split; [intros; now rewrite processItems_spec|].
  split; [reflexivity|].
  split; [intros cp n Hcp; unfold fullPath;
          destruct (String.eqb_spec cp EmptyString); [contradiction | reflexivity]|].
  intros files tr Hrun. unfold listAllFiles in Hrun.
  destruct (listLoop_sound _ _ _ _ _ _ Hrun) as (I1 & I2 & I3 & I4).
  assert (Hroot : In (EvStorageList EmptyString) tr).
  { destruct (I2 EmptyString) as [H|H]; [now left | | exact H].
    now apply not_elem_of_empty in H. }
  split; [exact Hroot|].
  split.
  - intros cp item Hcp Hitem. destruct (classifyFolder item) eqn:Hc.
    + assert (Hfp : In (fullPath cp (fo_name item))
                       (folderPaths cp (listedItems env cp))).
      { unfold folderPaths. apply in_map_iff. exists item. split; [reflexivity|].
        apply filter_In. now split. }
      destruct (I3 (fullPath cp (fo_name item))) as [H|H]; [| | exact H].
      * apply I4. now exists cp.
      * now apply not_elem_of_empty in H.
    + apply I1. right. exists cp. split; [exact Hcp|].
      unfold fileRecords. apply in_map_iff. exists item. split; [reflexivity|].
      apply filter_In. split; [exact Hitem | now rewrite Hc].
  - intros f Hf. apply I1 in Hf as [[]|(cp & Hcp & Hf)].
    unfold fileRecords in Hf. apply in_map_iff in Hf as (item & <- & Hitem).
    apply filter_In in Hitem as [Hitem Hc]. apply negb_true_iff in Hc.
    split; [reflexivity|]. now exists cp, item.
Qed.

End ListingFacts.

(** C5, the claim as worded fails: the zero-byte file [empty.wav] has
    metadata with a size field, yet it is taken for a folder; the bucket that
    holds it enumerates to no object at all, and its path is listed as if it
    were a folder. *)
Lemma zero_byte_file_is_a_folder_counterexample :
  ¬ SpecWords.folderAsStated
      (Fixtures.entry "empty.wav" (Some (Fixtures.audioMeta 0))) ∧
  Supabase.listAllFiles (Fixtures.calmEnv Fixtures.zeroByteListing) 2 =
  (Done [], [EvStorageList EmptyString; EvFoundFolder "empty.wav";
             EvStorageList "empty.wav"]).
Proof.
  split; [|vm_compute; reflexivity].
  unfold SpecWords.folderAsStated. intros [H _].
  destruct (H ltac:(vm_compute; reflexivity)) as [H'|(md & H1 & H2)].
  - discriminate H'.
  - injection H1 as <-. discriminate H2.
Qed.

(** C5 on the bucket [{a/, a/b.mp3, c.wav}], whose paths are the root and
    [a]: with the fuel of its bound the enumeration returns, and the root
    was listed. *)
Lemma enumeration_returns_files_only_witness :
  ∃ files tr,
    Supabase.listAllFiles (Fixtures.calmEnv Fixtures.treeListing)
      (SpecWords.listingBound (Fixtures.calmEnv Fixtures.treeListing)
         [EmptyString; "a"]) = (Done files, tr) ∧
    In (EvStorageList EmptyString) tr.
Proof.
  destruct (enumeration_returns_files_only (Fixtures.calmEnv Fixtures.treeListing)
              (SpecWords.listingBound (Fixtures.calmEnv Fixtures.treeListing)
                 [EmptyString; "a"]))
    as (Hends & _ & _ & _ & _ & _ & Hsound).
  destruct (Hends [EmptyString; "a"]) as (files & tr & Hrun).
  - split; [now left|].
    intros cp [<-|[<-|[]]]; vm_compute; intros x Hx; tauto.
  - lia.
  - exists files, tr. split; [exact Hrun|].
    exact (proj1 (Hsound files tr Hrun)).
Defined.


(** ** The choice of the strategy *)

Lemma append_cancel_l p a b : p +:+ a = p +:+ b → a = b.
Proof.
  induction p as [|c p IH]; simpl; intros H; [exact H|].
  injection H as H. now apply IH.
Qed.


Section StrategyFacts.

Import Supabase Backup.

Variable env : Env.
Variable cfg : Config.BackupConfig.



End StrategyFacts.




(** ** Batches and the whole run *)

Section BatchFacts.

Import Supabase Backup SpecWords.

Variable env : Env.
Variable cfg : Config.BackupConfig.

Lemma slice_batch {A} (l : list A) i k :
  0 <= i < Z.of_nat (length l) → 0 < k →
  Js.slice l i (Z.min (i + k) (Z.of_nat (length l))) =
  take (Z.to_nat k) (drop (Z.to_nat i) l).
Proof.
  intros Hi Hk. unfold Js.slice.
  destruct (Z.ltb_spec i 0) as [|_]; [lia|].
  destruct (Z.ltb_spec (Z.min (i + k) (Z.of_nat (length l))) 0) as [|_]; [lia|].
  rewrite (Z.min_l i) by lia.
  rewrite (Z.min_l (Z.min _ _)) by lia.
  destruct (Z.le_ge_cases (i + k) (Z.of_nat (length l))) as [H|H].
  - rewrite Z.min_l by lia. f_equal. lia.
  - rewrite Z.min_r by lia.
    rewrite !take_ge; [reflexivity| |]; rewrite length_drop; lia.
Qed.

Lemma counted_inc c c' :
  c' = incSuccess c ∨ c' = incSkip c ∨ c' = incError c →
  counted c' = counted c + 1.
Proof.
  unfold counted. intros [-> | [-> | ->]]; simpl; lia.
Qed.

Lemma runBatch_counts batch : ∀ c,
  ∃ c' tr, runBatch env cfg batch c = (Done c', tr) ∧
           counted c' = counted c + Z.of_nat (length batch).
Proof.
  induction batch as [|file batch IH]; intros c; simpl.
  - exists c, []. split; [reflexivity | lia].
  - destruct (transfer_counts_one env cfg file c) as (c1 & t1 & E1 & H1).
    destruct (IH c1) as (c2 & t2 & E2 & H2).
    unfold bind. rewrite E1, E2. eexists _, _. split; [reflexivity|].
    apply counted_inc in H1. lia.
Qed.

Lemma batchLoop_groups allFiles :
  0 < Config.batchSize cfg →
  ∀ fuel j c,
    0 <= j →
    (length (drop (Z.to_nat (j * Config.batchSize cfg)) allFiles) <= fuel)%nat →
    ∃ groups c' tr,
      batchLoop env cfg fuel allFiles (j * Config.batchSize cfg) c = (Done c', tr) ∧
      runGroups env cfg (j + 1) groups c = (Done c', tr) ∧
      concat groups = drop (Z.to_nat (j * Config.batchSize cfg)) allFiles ∧
      Forall (fun g => 0 < Z.of_nat (length g) <= Config.batchSize cfg) groups ∧
      (∀ (n : nat) g, groups !! n = Some g → (S n < length groups)%nat →
                      Z.of_nat (length g) = Config.batchSize cfg) ∧
      Z.of_nat (length groups) =
        (Z.of_nat (length (drop (Z.to_nat (j * Config.batchSize cfg)) allFiles))
         + Config.batchSize cfg - 1) / Config.batchSize cfg ∧
      counted c' =
        counted c +
        Z.of_nat (length (drop (Z.to_nat (j * Config.batchSize cfg)) allFiles)).
Proof.
  set (k := Config.batchSize cfg). intros Hk.
  induction fuel as [|fuel IH]; intros j c Hj Hfuel;
    rewrite length_drop in Hfuel.
  - exists [], c, []. simpl.
    destruct (Z.ltb_spec (j * k) (Z.of_nat (length allFiles))) as [|_]; [nia|].
    rewrite length_drop.
    replace (length allFiles - Z.to_nat (j * k))%nat with 0%nat by lia.
    rewrite drop_ge by lia. simpl.
    repeat split; try constructor; try lia; try discriminate.
    symmetry. apply Z.div_small. lia.
  - simpl. fold k.
    destruct (Z.ltb_spec (j * k) (Z.of_nat (length allFiles))) as [Hlt|Hge].
    + rewrite slice_batch by nia.
      set (rest := drop (Z.to_nat (j * k)) allFiles).
      assert (Hrest : Z.of_nat (length rest) = Z.of_nat (length allFiles) - j * k).
      { unfold rest. rewrite length_drop. nia. }
      set (batch := take (Z.to_nat k) rest).
      destruct (runBatch_counts batch c) as (c1 & t1 & E1 & H1).
      assert (Hnext : drop (Z.to_nat ((j + 1) * k)) allFiles = drop (Z.to_nat k) rest).
      { unfold rest. rewrite drop_drop. f_equal. nia. }
      destruct (IH (j + 1) c1)
        as (groups & c2 & t2 & E2 & G2 & Hcat & Hw & Hfull & Hn & Hc);
        [lia | rewrite length_drop; nia |].
      replace (j * k + k) with ((j + 1) * k) by ring.
      rewrite Z.div_mul by lia.
      unfold bind, emit. rewrite E1, E2. simpl.
      exists (batch :: groups), c2, (EvBatch (j + 1) (length batch) :: t1 ++ t2).
      rewrite Hnext in *.
      assert (Hlen : Z.of_nat (length batch) = Z.min k (Z.of_nat (length rest))).
      { unfold batch. rewrite length_take. lia. }
      split; [reflexivity|].
      split; [cbn [runGroups]; unfold bind, emit; rewrite E1, G2; reflexivity|].
      split; [simpl; rewrite Hcat; apply take_drop|].
      split; [constructor; [lia | exact Hw]|].
      split.
      { intros [|n] g Hg Hlast; simpl in Hg, Hlast.
        - injection Hg as <-.
          destruct (Z.le_gt_cases (Z.of_nat (length rest)) k) as [Hsmall|Hbig];
            [|lia].
          rewrite length_drop in Hn.
          replace (Z.of_nat (length rest - Z.to_nat k)) with 0 in Hn by lia.
          rewrite (Z.div_small (0 + k - 1)) in Hn by lia. lia.
        - apply (Hfull n g Hg). lia. }
      split.
      * simpl length. rewrite Nat2Z.inj_succ, Hn, length_drop.
        destruct (Z.le_ge_cases (Z.of_nat (length rest)) k) as [Hsmall|Hbig].
        -- replace (Z.of_nat (length rest - Z.to_nat k)) with 0 by lia.
           rewrite (Z.div_small (0 + k - 1)) by lia.
           apply Z.div_unique with (r := Z.of_nat (length rest) - 1); lia.
        -- replace (Z.of_nat (length rest - Z.to_nat k)) with (Z.of_nat (length rest) - k) by lia.
           replace (Z.of_nat (length rest) + k - 1) with (Z.of_nat (length rest) - k + k - 1 + 1 * k) by ring.
           rewrite Z.div_add by lia. lia.
      * rewrite Hc, H1, length_drop. lia.
    + exists [], c, []. simpl.
      rewrite drop_ge by lia. simpl.
      repeat split; try constructor; try lia; try discriminate.
      symmetry. apply Z.div_small. lia.
Qed.


Lemma ensureTempDir_trace :
  incl (trace_of (ensureTempDir env cfg)) [EvMkdir (Config.tempDir cfg)].
Proof.
  unfold ensureTempDir, call, ret.
  destruct (existsSync env _); simpl; [intros ? []|].
  intros ev [<-|[]]. now left.
Qed.

Lemma cleanupTempDir_total :
  cleanupTempDir env cfg =
  (Done tt,
   EvRm true (Config.tempDir cfg) ::
   match fs_rm env true (Config.tempDir cfg) with
   | Some _ => [EvCleanupWarning]
   | None => []
   end).
Proof.
  unfold cleanupTempDir, call, try_catch, emit.
  destruct (fs_rm env true _); reflexivity.
Qed.

(** A run, once the staging directory is there and the enumeration has
    returned. *)
Lemma backup_after_listing fuel files tr0 :
  result_of (ensureTempDir env cfg) = Done tt →
  listAllFiles env fuel = (Done files, tr0) →
  backup env cfg fuel =
  match files with
  | [] => (Done tt, trace_of (ensureTempDir env cfg) ++ tr0 ++ [EvNoFiles])
  | _ :: _ =>
      match batchLoop env cfg fuel files 0 zeroCounters with
      | (Done c, trb) =>
          (Done tt,
           trace_of (ensureTempDir env cfg) ++ tr0 ++ trb ++
           trace_of (cleanupTempDir env cfg) ++
           [EvNotify (buildMetrics files c (date_now_start env) (date_now_end env))])
      | (Threw e, trb) =>
          (Threw e, (trace_of (ensureTempDir env cfg) ++ tr0 ++ trb) ++ [EvBackupFailed])
      | (Diverged, trb) =>
          (Diverged, trace_of (ensureTempDir env cfg) ++ tr0 ++ trb)
      end
  end.
Proof.
  intros Hdir Hlist. unfold backup.
  destruct (ensureTempDir env cfg) as [r t]. unfold result_of in Hdir.
  simpl in Hdir. subst r. unfold trace_of; simpl snd.
  unfold bind at 1. rewrite Hlist. unfold bind at 1.
  destruct files as [|f files]; [reflexivity|].
  cbn [length Nat.eqb].
  destruct (batchLoop env cfg fuel (f :: files) 0 zeroCounters) as [[c|e|] trb].
  - rewrite cleanupTempDir_total. unfold bind, sendBackupNotification, emit, try_catch.
    reflexivity.
  - reflexivity.
  - reflexivity.
Qed.



(** C3 (as amended). A run that gets through its batches (the staging
    directory is there, the enumeration returned at least one object, the
    batch size is positive) removes the staging directory recursively, after
    the last batch and before the metrics go to the notifier, whatever the
    outcomes of the transfers were; when the removal fails a warning is
    logged, the notifier is still called and the run still ends normally. *)
Theorem staging_directory_removed_after_batches fuel files tr0 :
  0 < Config.batchSize cfg →
  result_of (ensureTempDir env cfg) = Done tt →
  listAllFiles env fuel = (Done files, tr0) →
  files ≠ [] →
  (length files <= fuel)%nat →
  ∃ c trb,
    batchLoop env cfg fuel files 0 zeroCounters = (Done c, trb) ∧
    backup env cfg fuel =
    (Done tt,
     trace_of (ensureTempDir env cfg) ++ tr0 ++ trb ++
     [EvRm true (Config.tempDir cfg)] ++
     match fs_rm env true (Config.tempDir cfg) with
     | Some _ => [EvCleanupWarning]
     | None => []
     end ++
     [EvNotify (buildMetrics files c (date_now_start env) (date_now_end env))]).
Proof.
  intros Hk Hdir Hlist Hne Hfuel.
  destruct (batchLoop_groups files Hk fuel 0 zeroCounters)
    as (groups & c & trb & E & _);
    [lia | rewrite Z.mul_0_l; simpl; rewrite drop_0; exact Hfuel |].
  rewrite Z.mul_0_l in E. exists c, trb. split; [exact E|].
  rewrite (backup_after_listing fuel files tr0 Hdir Hlist).
  destruct files as [|f files]; [contradiction|].
  rewrite E, cleanupTempDir_total. reflexivity.
Qed.

(** C2 (as amended). When the enumeration returns no object the run ends at
    once and normally: after the listing only the "no files" line is logged;
    no batch is announced, no object is probed, read or written, the staging
    directory is not removed, and no metrics are built or handed to the
    notifier. *)
Theorem empty_enumeration_ends_run fuel tr0 :
  result_of (ensureTempDir env cfg) = Done tt →
  listAllFiles env fuel = (Done [], tr0) →
  backup env cfg fuel =
    (Done tt, trace_of (ensureTempDir env cfg) ++ tr0 ++ [EvNoFiles]) ∧
  Forall (fun ev => isBatchWork ev = false ∧ ∀ m, ev ≠ EvNotify m)
         (trace_of (backup env cfg fuel)).
Proof.
  intros Hdir Hlist.
  rewrite (backup_after_listing fuel [] tr0 Hdir Hlist).
  split; [reflexivity|]. unfold trace_of at 1; simpl snd.
  apply Forall_app. split; [|apply Forall_app; split].
  - apply Forall_forall. intros ev Hev.
    apply list_elem_of_In, ensureTempDir_trace in Hev as [<-|[]].
    split; [reflexivity | discriminate].
  - pose proof (listLoop_events env fuel [EmptyString] ∅ []) as Hev.
    fold (listAllFiles env fuel) in Hev. rewrite Hlist in Hev.
    unfold trace_of in Hev; simpl in Hev.
    eapply Forall_impl; [exact Hev|].
    intros [] Hl; simpl in Hl; try discriminate Hl;
      (split; [reflexivity | discriminate]).
  - repeat constructor. discriminate.
Qed.

End BatchFacts.

(** C10. Two configurations that differ only in the extension allow-list
    give the same run: the same result and the same events, hence the same
    listings, probes, transfers, counters and metrics; and the same holds
    for every single transfer and for the batch loop on any list. The
    enumeration is not given the configuration at all. *)
Theorem fileExtensions_have_no_effect env cfg1 cfg2 fuel :
  Config.supabase cfg1 = Config.supabase cfg2 →
  Config.s3 cfg1 = Config.s3 cfg2 →
  Config.cronSchedule cfg1 = Config.cronSchedule cfg2 →
  Config.tempDir cfg1 = Config.tempDir cfg2 →
  Config.batchSize cfg1 = Config.batchSize cfg2 →
  Config.slackWebhookUrl cfg1 = Config.slackWebhookUrl cfg2 →
  Backup.backup env cfg1 fuel = Backup.backup env cfg2 fuel ∧
  (∀ file c, Backup.transfer env cfg1 file c = Backup.transfer env cfg2 file c) ∧
  (∀ allFiles i c,
     Backup.batchLoop env cfg1 fuel allFiles i c =
     Backup.batchLoop env cfg2 fuel allFiles i c).
Proof.
  destruct cfg1, cfg2; simpl. intros -> -> -> -> -> ->.
  repeat split.
Qed.


(** C2, the claim as worded fails: on a bucket without objects the run
    ends after the listing and hands no metrics to the notifier, so there is
    no [RunMetrics] whose counts could be zero. *)
Lemma empty_run_builds_no_metrics_counterexample :
  Supabase.listAllFiles (Fixtures.calmEnv Fixtures.emptyListing) 1 =
    (Done [], [EvStorageList EmptyString]) ∧
  ¬ SpecWords.emptyRunAsStated (Fixtures.calmEnv Fixtures.emptyListing)
      Fixtures.cfg0 1.
Proof.
  split; [reflexivity|].
  intros (m & H & _). vm_compute in H.
  repeat destruct H as [H|H]; try discriminate H. exact H.
Qed.

(** C2 on the bucket without objects. *)
Lemma empty_enumeration_ends_run_witness :
  Backup.backup (Fixtures.calmEnv Fixtures.emptyListing) Fixtures.cfg0 1 =
  (Done tt,
   trace_of (Backup.ensureTempDir (Fixtures.calmEnv Fixtures.emptyListing)
               Fixtures.cfg0)
   ++ [EvStorageList EmptyString] ++ [EvNoFiles]).
Proof.
  apply (empty_enumeration_ends_run (Fixtures.calmEnv Fixtures.emptyListing)
           Fixtures.cfg0 1 [EvStorageList EmptyString]); reflexivity.
Defined.

(** C3, the claim as worded fails: on a bucket without objects the run
    creates the staging directory, ends normally, and never removes it. *)
Lemma empty_run_keeps_staging_directory_counterexample :
  Backup.backup (Fixtures.calmEnv Fixtures.emptyListing) Fixtures.cfg0 1 =
    (Done tt,
     [EvMkdir "/tmp/supabase-audio-backups"; EvStorageList EmptyString;
      EvNoFiles]) ∧
  ¬ SpecWords.stagingRemovedAsStated (Fixtures.calmEnv Fixtures.emptyListing)
      Fixtures.cfg0 1.
Proof.
  split; [reflexivity|].
  unfold SpecWords.stagingRemovedAsStated. intros H.
  specialize (H ltac:(discriminate)). vm_compute in H.
  repeat destruct H as [H|H]; try discriminate H. exact H.
Qed.

(** C3 on the bucket [{a/, a/b.mp3, c.wav}] with a staging directory that
    cannot be removed: the run still ends normally. *)
Lemma staging_directory_removed_after_batches_witness :
  result_of (Backup.backup (Fixtures.stickyEnv Fixtures.treeListing)
               Fixtures.cfg0 2) = Done tt ∧
  In EvCleanupWarning
     (trace_of (Backup.backup (Fixtures.stickyEnv Fixtures.treeListing)
                  Fixtures.cfg0 2)).
Proof.
  destruct (staging_directory_removed_after_batches
              (Fixtures.stickyEnv Fixtures.treeListing) Fixtures.cfg0 2
              (match result_of (Supabase.listAllFiles
                                  (Fixtures.stickyEnv Fixtures.treeListing) 2) with
               | Done l => l
               | _ => []
               end)
              (trace_of (Supabase.listAllFiles
                           (Fixtures.stickyEnv Fixtures.treeListing) 2)))
    as (c & trb & _ & ->);
    [reflexivity | reflexivity | vm_compute; reflexivity
    | vm_compute; discriminate | vm_compute; repeat constructor |].
  split; [reflexivity|].
  unfold trace_of at 1. cbn [snd].
  do 4 (apply in_or_app; right). apply in_or_app; left.
  simpl. now left.
Defined.


(** C10 on two allow-lists. *)
Lemma fileExtensions_have_no_effect_witness :
  Backup.backup (Fixtures.calmEnv Fixtures.treeListing)
    (Fixtures.cfgExtensions [".mp3"]) 2 =
  Backup.backup (Fixtures.calmEnv Fixtures.treeListing)
    (Fixtures.cfgExtensions [".txt"; ".pdf"]) 2.
Proof.
  apply (fileExtensions_have_no_effect (Fixtures.calmEnv Fixtures.treeListing)
           (Fixtures.cfgExtensions [".mp3"])
           (Fixtures.cfgExtensions [".txt"; ".pdf"]) 2); reflexivity.
Defined.

(** * Further properties of the code *)

(** ** More on the schedule evaluator *)

Section MoreSchedulerFacts.

Import Scheduler Observe.

Lemma digit_val_decimal radix a :
  SpecWords.isDecimalDigit a = true →
  Js.digit_val radix a = Some (Z.of_nat (nat_of_ascii a) - 48).
Proof.
  unfold SpecWords.isDecimalDigit, Js.digit_val. intros H.
  apply andb_true_iff in H as [H1 H2].
  apply Nat.leb_le in H1, H2.
  destruct (Z.leb_spec 48 (Z.of_nat (nat_of_ascii a))); [|lia].
  destruct (Z.leb_spec (Z.of_nat (nat_of_ascii a)) 57); [|lia].
  reflexivity.
Qed.

Lemma digits_decimal s : ∀ acc,
  SpecWords.allDigits s = true →
  Js.digits 10 s (Some acc) = Some (decimalFrom acc s).
Proof.
  induction s as [|a s IH]; intros acc H; simpl in *; [reflexivity|].
  apply andb_true_iff in H as [Ha Hs].
  rewrite (digit_val_decimal 10 a Ha). now apply IH.
Qed.

Lemma digit_not_ws a : SpecWords.isDecimalDigit a = true → Js.is_ws a = false.
Proof.
  unfold SpecWords.isDecimalDigit, Js.is_ws. intros H.
  apply andb_true_iff in H as [H1 H2]. apply Nat.leb_le in H1, H2.
  destruct (Nat.eqb_spec (nat_of_ascii a) 32); [lia|].
  destruct (Nat.leb_spec (nat_of_ascii a) 13); [lia|].
  now rewrite andb_false_r.
Qed.

Lemma digit_not_char a c :
  SpecWords.isDecimalDigit a = true → SpecWords.isDecimalDigit c = false →
  Ascii.eqb a c = false.
Proof.
  intros Ha Hc. destruct (Ascii.eqb_spec a c) as [->|]; congruence.
Qed.

(** [parseInt] reads a number of the schedule as its decimal value. *)
Lemma parseInt_number s :
  isNumber s = true → Js.parseInt s = Some (decimalValue s).
Proof.
  unfold isNumber. intros H. apply andb_true_iff in H as [Hd Hne].
  destruct s as [|a s]; [discriminate|]. simpl in Hd.
  apply andb_true_iff in Hd as [Ha Hs].
  unfold Js.parseInt. simpl Js.skip_ws. rewrite (digit_not_ws a Ha).
  unfold Js.strip_sign.
  rewrite (digit_not_char a "-" Ha), (digit_not_char a "+" Ha) by reflexivity.
  assert (Hr : Js.strip_radix (String a s) = (10, String a s)).
  { destruct s as [|d s]; [reflexivity|]. simpl.
    simpl in Hs. apply andb_true_iff in Hs as [Hd _].
    rewrite (digit_not_char d "x" Hd), (digit_not_char d "X" Hd) by reflexivity.
    now rewrite andb_false_r. }
  rewrite Hr. simpl Js.digits. rewrite (digit_val_decimal 10 a Ha).
  rewrite digits_decimal by exact Hs.
  unfold decimalValue. simpl. reflexivity.
Qed.

Lemma split_no_sep c s :
  Js.includes_char c s = false → Js.split c s = [s].
Proof.
  induction s as [|a s IH]; simpl; [reflexivity|].
  intros H. apply orb_false_iff in H as [Ha Hs].
  rewrite Ha, (IH Hs). reflexivity.
Qed.

Lemma number_excludes c s :
  SpecWords.isDecimalDigit c = false → isNumber s = true →
  Js.includes_char c s = false.
Proof.
  intros Hc H. apply andb_true_iff in H as [H _].
  now apply allDigits_excludes.
Qed.

Lemma number_not_star s t : isNumber s = true → String.eqb (s +:+ t) "*" = false.
Proof.
  intros H. apply andb_true_iff in H as [Hd Hne].
  destruct s as [|a s]; [discriminate|]. simpl in Hd.
  apply andb_true_iff in Hd as [Ha _]. simpl.
  now rewrite (digit_not_char a "*" Ha).
Qed.

(** A field whose first character is neither the wildcard nor a slash gets
    no step behaviour. *)
Lemma stepRule_first_char a s v :
  Ascii.eqb a "/" = false → Ascii.eqb a "*" = false →
  stepRule (String a s) v = None.
Proof.
  intros Hslash Hstar. unfold stepRule.
  destruct (Js.includes_char "/" (String a s)); [|reflexivity].
  simpl Js.split. rewrite Hslash.
  destruct (Js.split "/" s) as [|h t]; simpl; now rewrite Hstar.
Qed.

Lemma number_first_char s :
  isNumber s = true →
  ∃ a s', s = String a s' ∧ SpecWords.isDecimalDigit a = true.
Proof.
  intros H. apply andb_true_iff in H as [Hd Hne].
  destruct s as [|a s]; [discriminate|]. simpl in Hd.
  apply andb_true_iff in Hd as [Ha _]. eauto.
Qed.

Lemma joinWith_cons sep p q rest :
  joinWith sep (p :: q :: rest) = p +:+ String sep (joinWith sep (q :: rest)).
Proof. reflexivity. Qed.

Lemma split_joinWith c parts :
  parts ≠ [] →
  Forall (fun p => Js.includes_char c p = false) parts →
  Js.split c (joinWith c parts) = parts.
Proof.
  induction parts as [|p [|q rest] IH]; intros Hne Hall.
  - contradiction.
  - simpl. apply split_no_sep. now inversion Hall.
  - rewrite joinWith_cons. inversion Hall as [|? ? Hp Hrest]; subst.
    rewrite split_app_sep by exact Hp. f_equal. apply IH; [discriminate | exact Hrest].
Qed.

Lemma joinWith_excludes c sep parts :
  Ascii.eqb sep c = false →
  Forall (fun p => Js.includes_char c p = false) parts →
  Js.includes_char c (joinWith sep parts) = false.
Proof.
  intros Hsep. induction parts as [|p [|q rest] IH]; intros Hall.
  - reflexivity.
  - simpl. now inversion Hall.
  - rewrite joinWith_cons, includes_char_app. inversion Hall as [|? ? Hp Hrest]; subst.
    rewrite Hp. simpl. rewrite Hsep. simpl. now apply IH.
Qed.

Lemma numbers_exclude c parts :
  SpecWords.isDecimalDigit c = false →
  Forall (fun p => isNumber p = true) parts →
  Forall (fun p => Js.includes_char c p = false) parts.
Proof.
  intros Hc H. eapply Forall_impl; [exact H|].
  intros p Hp. now apply number_excludes.
Qed.

Lemma existsb_parseInt_numbers parts v :
  Forall (fun p => isNumber p = true) parts →
  existsb (fun x => Js.num_eq x v) (map Js.parseInt parts) =
  existsb (fun p => decimalValue p =? v) parts.
Proof.
  induction 1 as [|p parts Hp _ IH]; simpl; [reflexivity|].
  now rewrite (parseInt_number p Hp), IH.
Qed.

(** X1. A field that is a comma list of numbers matches exactly when the
    value is one of the numbers; a single number is the list of one. The
    bounds [min] and [max] play no role: a number outside them is accepted
    as a field and simply never matches a calendar value. *)
Theorem list_field_matches_its_values parts v min max :
  parts ≠ [] →
  Forall (fun p => isNumber p = true) parts →
  matchCronField (joinWith "," parts) v min max =
  existsb (fun p => decimalValue p =? v) parts.
Proof.
  intros Hne Hall.
  assert (Hfirst : ∃ a s, joinWith "," parts = String a s ∧
                          SpecWords.isDecimalDigit a = true).
  { destruct parts as [|p rest]; [contradiction|].
    inversion Hall as [|? ? Hp _]; subst.
    destruct (number_first_char p Hp) as (a & s' & -> & Ha).
    destruct rest; [now exists a, s' | now eexists a, _]. }
  destruct Hfirst as (a & s & Ef & Ha).
  unfold matchCronField. rewrite Ef.
  assert (Hstar : String.eqb (String a s) "*" = false)
    by (simpl; now rewrite (digit_not_char a "*" Ha)).
  rewrite Hstar, stepRule_first_char by (now apply digit_not_char).
  rewrite <- Ef. unfold laterRules.
  rewrite (joinWith_excludes "-" "," parts)
    by (reflexivity || now apply numbers_exclude).
  pose proof (numbers_exclude "," parts eq_refl Hall) as Hcomma.
  rewrite (split_joinWith "," parts Hne Hcomma).
  destruct (Js.includes_char "," (joinWith "," parts)) eqn:Ec.
  - now apply existsb_parseInt_numbers.
  - destruct parts as [|p [|q rest]].
    + contradiction.
    + simpl. inversion Hall; subst. rewrite parseInt_number by assumption.
      simpl. now rewrite orb_false_r.
    + rewrite joinWith_cons, includes_char_app in Ec. simpl in Ec.
      now rewrite orb_true_r in Ec.
Qed.

Lemma append_empty_r s : s +:+ EmptyString = s.
Proof.
  induction s as [|c s IH]; [reflexivity|].
  change (String c s +:+ EmptyString) with (String c (s +:+ EmptyString)).
  now rewrite IH.
Qed.

Lemma digit_val_comma radix : Js.digit_val radix "," = None.
Proof.
  unfold Js.digit_val. simpl. now rewrite !andb_false_r.
Qed.

Lemma strip_radix_app_comma s b :
  Js.strip_radix (s +:+ String "," b) =
  (fst (Js.strip_radix s), snd (Js.strip_radix s) +:+ String "," b).
Proof.
  destruct s as [|c [|d r]]; simpl.
  - destruct b; reflexivity.
  - now rewrite andb_false_r.
  - destruct (Ascii.eqb c "0" && (Ascii.eqb d "x" || Ascii.eqb d "X")); reflexivity.
Qed.

Lemma parse_tail_comma s b neg :
  (let '(radix, s3) := Js.strip_radix (s +:+ String "," b) in
   match Js.digits radix s3 None with
   | Some n => Some (if neg : bool then - n else n)
   | None => None
   end) =
  (let '(radix, s3) := Js.strip_radix s in
   match Js.digits radix s3 None with
   | Some n => Some (if neg then - n else n)
   | None => None
   end).
Proof.
  rewrite strip_radix_app_comma.
  destruct (Js.strip_radix s) as [radix s3]; simpl.
  now rewrite digits_app_stop by apply digit_val_comma.
Qed.

(** [parseInt] stops reading at a comma. *)
Lemma parseInt_stops_at_comma a b :
  Js.parseInt (a +:+ String "," b) = Js.parseInt a.
Proof.
  unfold Js.parseInt.
  rewrite skip_ws_app_stop by reflexivity.
  destruct (Js.skip_ws a) as [|x r].
  - simpl. destruct b; reflexivity.
  - unfold Js.strip_sign; simpl.
    destruct (Ascii.eqb x "-"); [exact (parse_tail_comma r b true)|].
    destruct (Ascii.eqb x "+"); [exact (parse_tail_comma r b false)|].
    exact (parse_tail_comma (String x r) b false).
Qed.

(** X2. A field [a-b] of two numbers matches exactly the values from [a] to
    [b], both included; and it matches exactly the same values when a step
    ([a-b/c]) or further list items ([a-b,c]) follow the range: what follows
    is read by nobody. *)
Theorem range_field_ignores_step_and_list a b t v min max :
  isNumber a = true → isNumber b = true →
  Js.includes_char "-" t = false →
  (t = EmptyString ∨ ∃ t', t = String "/" t' ∨ t = String "," t') →
  matchCronField (a +:+ "-" +:+ b +:+ t) v min max =
  (decimalValue a <=? v) && (v <=? decimalValue b).
Proof.
  intros Ha Hb Ht Htail.
  destruct (number_first_char a Ha) as (x & a' & -> & Hx).
  unfold matchCronField.
  change (String x a' +:+ "-" +:+ b +:+ t)
    with (String x (a' +:+ String "-" (b +:+ t))).
  assert (Hstar : String.eqb (String x (a' +:+ String "-" (b +:+ t))) "*" = false)
    by (simpl; now rewrite (digit_not_char x "*" Hx)).
  rewrite Hstar, stepRule_first_char by (now apply digit_not_char).
  unfold laterRules.
  change (String x (a' +:+ String "-" (b +:+ t)))
    with (String x a' +:+ String "-" (b +:+ t)).
  rewrite includes_char_app. simpl Js.includes_char at 2.
  rewrite orb_true_r.
  rewrite split_app_sep by (now apply number_excludes).
  rewrite split_no_sep
    by (rewrite includes_char_app, Ht, orb_false_r; now apply number_excludes).
  simpl map. simpl nth.
  rewrite (parseInt_number _ Ha).
  assert (Hpb : Js.parseInt (b +:+ t) = Some (decimalValue b)).
  { destruct Htail as [->|(t' & [->| ->])].
    - rewrite append_empty_r. now apply parseInt_number.
    - rewrite parseInt_stops_at_slash. now apply parseInt_number.
    - rewrite parseInt_stops_at_comma. now apply parseInt_number. }
  rewrite Hpb. reflexivity.
Qed.

(** X3. A field that starts with a minus sign never matches, whatever
    follows: the minus is taken for the range separator, and the start of the
    range is then not a number. *)
Theorem leading_minus_never_matches s v min max :
  matchCronField (String "-" s) v min max = false.
Proof.
  unfold matchCronField. simpl String.eqb.
  rewrite stepRule_first_char by reflexivity.
  unfold laterRules. simpl Js.includes_char. simpl Js.split.
  reflexivity.
Qed.

(** X4. The schedule [*/n * * * *] fires exactly at the minutes that [n]
    divides, and never for [n = 0]. *)
Theorem minute_step_schedule n now :
  isNumber n = true →
  shouldRunBackup ("*/" +:+ n +:+ " * * * *") now = true ↔
  decimalValue n ≠ 0 ∧ Z.rem (getMinutes now) (decimalValue n) = 0.
Proof.
  intros Hn. unfold shouldRunBackup.
  change ("*/" +:+ n +:+ " * * * *")
    with (String "*" (String "/" n) +:+ String " " "* * * *").
  rewrite split_app_sep
    by (simpl; now apply number_excludes).
  change (Js.split " " "* * * *") with ["*"; "*"; "*"; "*"].
  assert (Hm : ∀ v lo hi, matchCronField (String "*" (String "/" n)) v lo hi
               = Js.rem_is_zero v (Some (decimalValue n))).
  { intros v lo hi. unfold matchCronField. simpl String.eqb.
    rewrite stepRule_wildcard, split_no_sep by (now apply number_excludes).
    simpl hd. now rewrite parseInt_number. }
  rewrite Hm.
  change (matchCronField "*" (getHours now) 0 23) with true.
  change (matchCronField "*" (getDate now) 1 31) with true.
  change (matchCronField "*" (getMonth now + 1) 1 12) with true.
  change (matchCronField "*" (getDay now) 0 6) with true.
  rewrite !andb_true_r. unfold Js.rem_is_zero.
  destruct (Z.eqb_spec (decimalValue n) 0) as [E|E].
  - split; [discriminate | tauto].
  - rewrite Z.eqb_eq. tauto.
Qed.

End MoreSchedulerFacts.

(** ** More on one transfer *)

Section MoreTransferFacts.

Import Supabase Backup Observe.

Variable env : Env.
Variable cfg : Config.BackupConfig.

(** Unfold a transfer, probe included, and split on every answer of the
    world. *)
Ltac run_whole_transfer :=
  unfold backupFile, S3.fileExists, bufferMethod, fileMethod, rmTemp,
    downloadFile, S3.uploadBuffer, S3.uploadFile, call, call_val, try_catch,
    bind, ret, emit, throw;
  repeat match goal with
         | |- context [match ?x with _ => _ end] =>
             lazymatch x with
             | s3_list _ _ => destruct x eqn:?
             | storage_download _ _ _ => destruct x eqn:?
             | s3_put _ _ _ => destruct x eqn:?
             | s3_upload _ _ _ => destruct x eqn:?
             | fs_writeFile _ _ _ => destruct x eqn:?
             | fs_rm _ _ _ => destruct x eqn:?
             | smallEnough _ => destruct x eqn:?
             | (0 <? _) => destruct x eqn:?
             end; simpl
         | |- context [if ?x then _ else _] =>
             lazymatch x with
             | smallEnough _ => destruct x eqn:?
             | (0 <? _) => destruct x eqn:?
             end; simpl
         end.

Ltac settle_events :=
  repeat match goal with
         | H : In _ (_ :: _) |- _ => destruct H as [H|H]
         | H : In _ [] |- _ => destruct H
         | H : _ = _ :> Event |- _ =>
             first [discriminate H | injection H as ?; subst]
         end.

(** X5. Whenever a transfer uses the staged strategy, the last thing it does
    is to call for the removal of its staging file, on the normal path and
    on every error path alike (also when nothing was written yet). *)
Theorem staging_file_removed_on_every_exit file :
  In (EvStrategy Staged (path file)) (trace_of (backupFile env cfg file)) →
  last (trace_of (backupFile env cfg file)) = Some (EvRm false (tempFilePath cfg file)).
Proof.
  unfold trace_of. run_whole_transfer; intros H;
    first [ reflexivity
          | exfalso; simpl in H; repeat destruct H as [H|H];
            first [discriminate H | exact H] ].
Qed.

(** X6. One transfer probes the destination exactly once, downloads the
    object at most twice, and issues at most one PutObject, one write of the
    staging file and one upload from it; every event of the transfer names
    the object's own path, key or staging file and nothing else. *)
Theorem transfer_attempts_are_bounded_and_local file :
  let tr := trace_of (backupFile env cfg file) in
  countEvents isProbe tr = 1%nat ∧
  (countEvents isDownload tr <= 2)%nat ∧
  (countEvents isPutBuffer tr <= 1)%nat ∧
  (countEvents isWriteFile tr <= 1)%nat ∧
  (countEvents isUploadFile tr <= 1)%nat ∧
  forallb (ownEvent cfg file) tr = true.
Proof.
  unfold trace_of, countEvents. run_whole_transfer;
    unfold ownEvent; simpl; rewrite ?String.eqb_refl; simpl;
    repeat split; lia.
Qed.


(** X7. For an object that the probe reports absent, the transfer returns
    normally exactly when the buffered attempt was due and went through, or
    the staged attempt went through. An error that the transfer throws is
    always the error of a step of the staged attempt (its download, the write
    of the staging file, the upload, the removal): the error of a failed
    buffered attempt is never reported. *)
Theorem transfer_outcome_by_attempts file :
  result_of (S3.fileExists env (Config.s3 cfg) (path file)) = Done false →
  (result_of (backupFile env cfg file) = Done tt ↔
   (smallEnough file = true ∧ bufferedSucceeds env cfg file) ∨
   stagedSucceeds env cfg (if smallEnough file then 1%nat else 0%nat) file) ∧
  (∀ e, result_of (backupFile env cfg file) = Threw e →
     let attempt := if smallEnough file then 1%nat else 0%nat in
     storage_download env attempt (path file) = inl e ∨
     ∃ buffer,
       storage_download env attempt (path file) = inr buffer ∧
       (fs_writeFile env (tempFilePath cfg file) buffer = Some e ∨
        s3_upload env (tempFilePath cfg file)
          (S3.generateS3Key (Config.s3 cfg) (path file)) = Some e ∨
        fs_rm env false (tempFilePath cfg file) = Some e)).
Proof.
  unfold result_of at 1, S3.fileExists, call_val, try_catch, bind, ret.
  unfold bufferedSucceeds, stagedSucceeds, result_of.
  intros Hprobe.
  run_whole_transfer; simpl in Hprobe; try discriminate Hprobe;
    (split;
     [ split;
       [ intros H; try discriminate H; eauto 12
       | intros [[Hs (bf & ? & ?)] | (bf & ? & ? & ? & ?)];
         first [reflexivity | congruence] ]
     | intros e He; try discriminate He; inversion He; subst; eauto 12 ]).
Qed.

(** X8. When the staged upload of an object succeeded but the removal of
    the staging file then fails, the transfer throws the error of the
    removal, for a large object as well as for a small one whose buffered
    attempt had failed: the object is at the destination and is nevertheless
    not counted as copied. It is counted as skipped when the error of the
    removal is an [Error] whose message contains "already exists", and as
    failed otherwise. *)
Theorem failed_removal_fails_the_transfer file c buffer e :
  result_of (S3.fileExists env (Config.s3 cfg) (path file)) = Done false →
  (smallEnough file = true → ¬ bufferedSucceeds env cfg file) →
  storage_download env (if smallEnough file then 1%nat else 0%nat) (path file)
    = inr buffer →
  fs_writeFile env (tempFilePath cfg file) buffer = None →
  s3_upload env (tempFilePath cfg file)
    (S3.generateS3Key (Config.s3 cfg) (path file)) = None →
  fs_rm env false (tempFilePath cfg file) = Some e →
  In (EvUploadFile (tempFilePath cfg file)
        (S3.generateS3Key (Config.s3 cfg) (path file)))
     (trace_of (transfer env cfg file c)) ∧
  result_of (backupFile env cfg file) = Threw e ∧
  ((∃ message, e = JsError message ∧
               SpecWords.mentions "already exists" message) →
   result_of (transfer env cfg file c) = Done (incSkip c)) ∧
  (¬ (∃ message, e = JsError message ∧
                 SpecWords.mentions "already exists" message) →
   result_of (transfer env cfg file c) = Done (incError c)).
Proof.
  unfold result_of at 1, S3.fileExists, call_val, try_catch, bind, ret.
  intros Hprobe Hbuf Hdl Hwr Hup Hrm.
  assert (Hclass :
    ((∃ message, e = JsError message ∧
                 SpecWords.mentions "already exists" message) →
     Done (if saysAlreadyExists e then incSkip c else incError c) = Done (incSkip c)) ∧
    (¬ (∃ message, e = JsError message ∧
                   SpecWords.mentions "already exists" message) →
     Done (if saysAlreadyExists e then incSkip c else incError c) = Done (incError c))).
  { pose proof (saysAlreadyExists_spec e) as Hs.
    destruct (saysAlreadyExists e).
    - split; [reflexivity|]. intros Hn. exfalso. apply Hn, Hs. reflexivity.
    - split; [|reflexivity]. intros Hy. apply Hs in Hy. discriminate Hy. }
  rewrite transfer_classifies.
  unfold bufferedSucceeds in Hbuf.
  unfold backupFile, S3.fileExists, bufferMethod, fileMethod, rmTemp, downloadFile,
    S3.uploadBuffer, S3.uploadFile, call, call_val, try_catch, bind, ret, emit, throw.
  assert (Hp : (match s3_list env (S3.generateS3Key (Config.s3 cfg) (path file)) with
                | inr contents => 0 <? contents | inl _ => false end) = false).
  { destruct (s3_list env _) as [t|n]; simpl in *; [reflexivity|].
    destruct (0 <? n); [discriminate Hprobe | reflexivity]. }
  destruct (s3_list env _) as [t|n]; simpl in Hp |- *; try rewrite Hp; simpl.
  all: destruct (smallEnough file) eqn:Hsmall; simpl.
  all: try (destruct (storage_download env 0 (path file)) as [e0|b0] eqn:Hd0; simpl;
            [|destruct (s3_put env _ b0) as [e1|] eqn:Hput; simpl;
              [|exfalso; apply Hbuf; [reflexivity | now exists b0]]]).
  all: rewrite Hdl; simpl; rewrite Hwr; simpl; rewrite Hup; simpl; rewrite Hrm; simpl.
  all: unfold result_of, trace_of; destruct (saysAlreadyExists e); simpl in *;
       (split; [rewrite ?in_app_iff; simpl; tauto|]); split; try reflexivity;
       exact Hclass.
Qed.

(** X9. When the probe of the destination fails (an error or the timeout),
    [fileExists] answers [false] without throwing; the object is not skipped
    but transferred by one of the two strategies. *)
Theorem failed_probe_is_not_a_skip file e :
  s3_list env (S3.generateS3Key (Config.s3 cfg) (path file)) = inl e →
  S3.fileExists env (Config.s3 cfg) (path file) =
    (Done false, [EvProbe (S3.generateS3Key (Config.s3 cfg) (path file))]) ∧
  ¬ In (EvSkipExisting (path file)) (trace_of (backupFile env cfg file)) ∧
  (SpecWords.usesStrategy Buffered env cfg file ∨
   SpecWords.usesStrategy Staged env cfg file).
Proof.
  intros Hfail. split; [now rewrite fileExists_total, Hfail|].
  unfold SpecWords.usesStrategy, trace_of.
  unfold backupFile. rewrite fileExists_total, Hfail.
  destruct (smallEnough file);
    unfold bufferMethod, fileMethod, rmTemp, downloadFile, S3.uploadBuffer,
      S3.uploadFile, call, call_val, try_catch, bind, ret, emit, throw;
    repeat match goal with
           | |- context [match ?x with _ => _ end] =>
               lazymatch x with
               | storage_download _ _ _ => destruct x
               | s3_put _ _ _ => destruct x
               | s3_upload _ _ _ => destruct x
               | fs_writeFile _ _ _ => destruct x
               | fs_rm _ _ _ => destruct x
               end; simpl
           end;
    (split; [intros H; simpl in H; repeat destruct H as [H|H];
             first [discriminate H | exact H]
            | simpl; tauto]).
Qed.

End MoreTransferFacts.

(** ** More on batches and the whole run *)

Section MoreRunFacts.

Import Supabase Backup Observe SpecWords.

Variable env : Env.
Variable cfg : Config.BackupConfig.

Lemma listLoop_never_throws fuel : ∀ q P fs e,
  result_of (listLoop env fuel q P fs) ≠ Threw e.
Proof.
  induction fuel as [|fuel IH]; intros [|cp q] P fs e; simpl; try discriminate.
  destruct (decide (cp ∈ P)); [apply IH|].
  destruct (listOne_spec env cp q fs) as (tl & -> & _).
  unfold bind. simpl fst; simpl snd.
  specialize (IH (q ++ folderPaths cp (listedItems env cp)) (P ∪ {[cp]})
                 (fs ++ fileRecords cp (listedItems env cp)) e).
  destruct (listLoop env fuel _ _ _) as [r t']. exact IH.
Qed.

Lemma batchLoop_never_throws allFiles fuel : ∀ i c e,
  result_of (batchLoop env cfg fuel allFiles i c) ≠ Threw e.
Proof.
  induction fuel as [|fuel IH]; intros i c e; simpl;
    destruct (i <? Z.of_nat (length allFiles)); try discriminate.
  set (batch := Js.slice _ _ _).
  destruct (runBatch_counts env cfg batch c) as (c1 & t1 & E1 & _).
  unfold bind, emit. rewrite E1.
  specialize (IH (i + Config.batchSize cfg) c1 e).
  destruct (batchLoop env cfg fuel allFiles _ c1) as [r t2]. exact IH.
Qed.

(** X10. A run throws exactly when the staging directory is missing and
    cannot be created, and then it throws the error of [mkdir]: no answer
    of the source or of the destination, and no failed transfer, makes the
    run itself fail. *)
Theorem run_fails_only_without_staging_directory fuel e :
  result_of (backup env cfg fuel) = Threw e ↔
  existsSync env (Config.tempDir cfg) = false ∧
  mkdir env (Config.tempDir cfg) = Some e.
Proof.
  destruct (existsSync env (Config.tempDir cfg)) eqn:Hex;
    [|destruct (mkdir env (Config.tempDir cfg)) as [e0|] eqn:Hmk].
  2: { unfold backup, ensureTempDir. rewrite Hex. unfold call. rewrite Hmk.
       simpl. split; [intros H; injection H as ->; tauto|].
       intros [_ H]. now injection H as ->. }
  all: assert (Hdir : result_of (ensureTempDir env cfg) = Done tt)
         by (unfold ensureTempDir, call; rewrite Hex, ?Hmk; reflexivity).
  all: split; [|intros [? ?]; congruence]; intros Hthrow; exfalso.
  all: destruct (listAllFiles env fuel) as [[files|e1|] tr0] eqn:Hlist.
  all: try (pose proof (listLoop_never_throws fuel [EmptyString] ∅ [] e1) as Hn;
            fold (listAllFiles env fuel) in Hn; rewrite Hlist in Hn;
            now apply Hn).
  all: try (rewrite (backup_after_listing env cfg fuel files tr0 Hdir Hlist) in Hthrow;
            destruct files as [|f files]; [discriminate Hthrow|];
            pose proof (batchLoop_never_throws (f :: files) fuel 0 zeroCounters) as Hb;
            destruct (batchLoop env cfg fuel (f :: files) 0 zeroCounters)
              as [[c|e2|] trb];
            [discriminate Hthrow | now apply (Hb e2) | discriminate Hthrow]).
  all: unfold backup in Hthrow;
       destruct (ensureTempDir env cfg) as [r t]; unfold result_of in Hdir;
       simpl in Hdir; subst r; unfold bind at 1 in Hthrow;
       rewrite Hlist in Hthrow; discriminate Hthrow.
Qed.


Lemma processedPaths_app t1 t2 :
  processedPaths (t1 ++ t2) = processedPaths t1 ++ processedPaths t2.
Proof.
  induction t1 as [|ev t1 IH]; [reflexivity|].
  destruct ev; simpl; now rewrite IH.
Qed.

Lemma backupFile_processed file :
  processedPaths (trace_of (backupFile env cfg file)) = [path file].
Proof.
  unfold trace_of, backupFile. rewrite fileExists_total.
  destruct (match s3_list env _ with inr _ => _ | inl _ => _ end);
    [reflexivity|].
  destruct (smallEnough file);
    unfold bufferMethod, fileMethod, rmTemp, downloadFile, S3.uploadBuffer,
      S3.uploadFile, call, call_val, try_catch, bind, ret, emit, throw;
    repeat match goal with
           | |- context [match ?x with _ => _ end] =>
               lazymatch x with
               | storage_download _ _ _ => destruct x
               | s3_put _ _ _ => destruct x
               | s3_upload _ _ _ => destruct x
               | fs_writeFile _ _ _ => destruct x
               | fs_rm _ _ _ => destruct x
               end; simpl
           end; reflexivity.
Qed.

Lemma countOutcome_single o file :
  countOutcome env cfg o [file] =
  if outcome_eqb (outcomeOf env cfg file) o then 1 else 0.
Proof.
  unfold countOutcome. simpl.
  destruct (outcome_eqb (outcomeOf env cfg file) o); reflexivity.
Qed.

(** One transfer: the counter of its outcome goes up, its path is the one
    processed. *)
Lemma transfer_tally file c :
  ∃ c' tr,
    transfer env cfg file c = (Done c', tr) ∧
    processedPaths tr = [path file] ∧
    c_success c' = c_success c + countOutcome env cfg Copied [file] ∧
    c_skip c' = c_skip c + countOutcome env cfg Skipped [file] ∧
    c_error c' = c_error c + countOutcome env cfg Failed [file].
Proof.
  rewrite transfer_classifies.
  pose proof (backupFile_returns env cfg file) as Hr.
  pose proof (backupFile_processed file) as Hp.
  rewrite !countOutcome_single.
  unfold outcomeOf. unfold result_of in *. unfold trace_of in Hp.
  destruct (backupFile env cfg file) as [[[]|e|] tr]; simpl in *.
  - eexists _, _. split; [reflexivity|]. split; [exact Hp|]. simpl. lia.
  - destruct (saysAlreadyExists e); simpl.
    + eexists _, _. split; [reflexivity|]. split; [exact Hp|]. simpl. lia.
    + eexists _, _. split; [reflexivity|].
      split; [rewrite processedPaths_app, Hp; reflexivity|]. simpl. lia.
  - now contradiction Hr.
Qed.

Lemma countOutcome_app o l1 l2 :
  countOutcome env cfg o (l1 ++ l2) =
  countOutcome env cfg o l1 + countOutcome env cfg o l2.
Proof.
  unfold countOutcome. rewrite List.filter_app, length_app. lia.
Qed.

Lemma runBatch_tally batch : ∀ c,
  ∃ c' tr,
    runBatch env cfg batch c = (Done c', tr) ∧
    processedPaths tr = map path batch ∧
    c_success c' = c_success c + countOutcome env cfg Copied batch ∧
    c_skip c' = c_skip c + countOutcome env cfg Skipped batch ∧
    c_error c' = c_error c + countOutcome env cfg Failed batch.
Proof.
  induction batch as [|file batch IH]; intros c.
  - exists c, []. unfold countOutcome. simpl. repeat split; lia.
  - destruct (transfer_tally file c) as (c1 & t1 & E1 & P1 & S1 & K1 & F1).
    destruct (IH c1) as (c2 & t2 & E2 & P2 & S2 & K2 & F2).
    simpl runBatch. unfold bind. rewrite E1, E2.
    eexists _, _. split; [reflexivity|].
    split; [rewrite processedPaths_app, P1, P2; reflexivity|].
    change (file :: batch) with ([file] ++ batch).
    rewrite !countOutcome_app. lia.
Qed.

Lemma runGroups_tally groups : ∀ n c c' tr,
  runGroups env cfg n groups c = (Done c', tr) →
  processedPaths tr = map path (concat groups) ∧
  c_success c' = c_success c + countOutcome env cfg Copied (concat groups) ∧
  c_skip c' = c_skip c + countOutcome env cfg Skipped (concat groups) ∧
  c_error c' = c_error c + countOutcome env cfg Failed (concat groups).
Proof.
  induction groups as [|g groups IH]; intros n c c' tr.
  - simpl. intros H. injection H as <- <-. unfold countOutcome. simpl.
    repeat split; lia.
  - simpl runGroups.
    destruct (runBatch_tally g c) as (c1 & t1 & E1 & P1 & S1 & K1 & F1).
    unfold bind, emit. rewrite E1.
    destruct (runGroups env cfg (n + 1) groups c1) as [r t2] eqn:E2.
    intros H. injection H as -> <-.
    destruct (IH _ _ _ _ E2) as (P2 & S2 & K2 & F2).
    simpl concat. rewrite map_app, !countOutcome_app.
    split; [simpl; rewrite processedPaths_app, P1, P2; reflexivity|]. lia.
Qed.

(** X11. With a positive batch size, at the end of the batch loop the three
    counters are the numbers of objects whose transfer is copied, skipped
    and failed; an object is copied when its transfer returns normally,
    skipped when it throws an [Error] whose message contains the text
    "already exists", and failed when it throws anything else. *)
Theorem counters_are_counts_by_outcome fuel allFiles :
  0 < Config.batchSize cfg →
  (length allFiles <= fuel)%nat →
  (∃ c tr,
     batchLoop env cfg fuel allFiles 0 zeroCounters = (Done c, tr) ∧
     c_success c = countOutcome env cfg Copied allFiles ∧
     c_skip c = countOutcome env cfg Skipped allFiles ∧
     c_error c = countOutcome env cfg Failed allFiles) ∧
  (∀ file,
     (outcomeOf env cfg file = Copied ↔
      result_of (backupFile env cfg file) = Done tt) ∧
     (outcomeOf env cfg file = Skipped ↔
      ∃ message,
        result_of (backupFile env cfg file) = Threw (JsError message) ∧
        SpecWords.mentions "already exists" message) ∧
     (outcomeOf env cfg file = Failed ↔
      ∃ e,
        result_of (backupFile env cfg file) = Threw e ∧
        ¬ ∃ message, e = JsError message ∧
                     SpecWords.mentions "already exists" message)).
Proof.
  intros Hk Hfuel. split.
  - destruct (batchLoop_groups env cfg allFiles Hk fuel 0 zeroCounters)
      as (groups & c & trb & E & G & Hcat & _);
      [lia | rewrite Z.mul_0_l; simpl; rewrite drop_0; exact Hfuel |].
    rewrite Z.mul_0_l in E, Hcat. simpl in G, Hcat. rewrite drop_0 in Hcat.
    destruct (runGroups_tally _ _ _ _ _ G) as (_ & S & K & F).
    rewrite Hcat in S, K, F. simpl in S, K, F.
    exists c, trb. auto.
  - intros file. unfold outcomeOf.
    pose proof (backupFile_returns env cfg file) as Hr.
    destruct (result_of (backupFile env cfg file)) as [[]|e|];
      [| |now contradiction Hr].
    + split; [tauto|]. split; (split; [discriminate|]).
      * intros (m & H & _). discriminate H.
      * intros (e & H & _). discriminate H.
    + pose proof (saysAlreadyExists_spec e) as Hs.
      destruct (saysAlreadyExists e).
      * split; [split; discriminate|]. split.
        -- split; [intros _|reflexivity].
           destruct (proj1 Hs eq_refl) as (m & -> & Hm). now exists m.
        -- split; [discriminate|]. intros (e' & [= <-] & Hn).
           exfalso. apply Hn, Hs. reflexivity.
      * split; [split; discriminate|]. split.
        -- split; [discriminate|]. intros (m & [= ->] & Hm).
           assert (false = true) by (apply Hs; now exists m). discriminate.
        -- split; [intros _|reflexivity]. exists e. split; [reflexivity|].
           intros Hy. apply Hs in Hy. discriminate Hy.
Qed.

(** X12. With a positive batch size, the transfers that the batch loop
    starts are those of the objects of the list, each one once and in the
    order of the list. *)
Theorem every_object_is_processed_once_in_order fuel allFiles :
  0 < Config.batchSize cfg →
  (length allFiles <= fuel)%nat →
  processedPaths (trace_of (batchLoop env cfg fuel allFiles 0 zeroCounters))
  = map path allFiles.
Proof.
  intros Hk Hfuel.
  destruct (batchLoop_groups env cfg allFiles Hk fuel 0 zeroCounters)
    as (groups & c & trb & E & G & Hcat & _);
    [lia | rewrite Z.mul_0_l; simpl; rewrite drop_0; exact Hfuel |].
  rewrite Z.mul_0_l in E, Hcat. simpl in G, Hcat. rewrite drop_0 in Hcat.
  destruct (runGroups_tally _ _ _ _ _ G) as (P & _).
  rewrite E. unfold trace_of; simpl. now rewrite P, Hcat.
Qed.

Lemma batchLoop_stuck allFiles fuel : ∀ i c,
  Config.batchSize cfg <= 0 → i <= 0 → allFiles ≠ [] →
  result_of (batchLoop env cfg fuel allFiles i c) = Diverged.
Proof.
  induction fuel as [|fuel IH]; intros i c Hk Hi Hne; simpl;
    (destruct (Z.ltb_spec i (Z.of_nat (length allFiles))) as [_|Hge];
     [|destruct allFiles; [contradiction | simpl in Hge; lia]]).
  - reflexivity.
  - set (batch := Js.slice _ _ _).
    destruct (runBatch_counts env cfg batch c) as (c1 & t1 & E1 & _).
    unfold bind, emit. rewrite E1.
    specialize (IH (i + Config.batchSize cfg) c1 Hk ltac:(lia) Hne).
    unfold result_of in *.
    destruct (batchLoop env cfg fuel allFiles _ c1) as [r t2].
    simpl in *. now subst r.
Qed.

Lemma batchLoop_zero_idle allFiles fuel : ∀ c,
  Config.batchSize cfg = 0 →
  processedPaths (trace_of (batchLoop env cfg fuel allFiles 0 c)) = [].
Proof.
  induction fuel as [|fuel IH]; intros c Hk; simpl;
    destruct (0 <? Z.of_nat (length allFiles)); try reflexivity.
  rewrite Hk. rewrite Z.add_0_r.
  assert (Hb : Js.slice allFiles 0 (0 `min` Z.of_nat (length allFiles)) = []).
  { unfold Js.slice. simpl. rewrite Z.min_l by lia.
    rewrite (Z.min_l 0) by lia. reflexivity. }
  rewrite Hb. simpl. unfold bind, emit, ret. simpl.
  specialize (IH c Hk). unfold trace_of in *.
  destruct (batchLoop env cfg fuel allFiles 0 c) as [r t2]. simpl in *.
  exact IH.
Qed.

(** X13. With a batch size of zero or less and at least one object the
    batch loop never ends, whatever the fuel; with a batch size of zero it
    never starts a transfer either. *)
Theorem nonpositive_batch_size_never_ends fuel allFiles c :
  Config.batchSize cfg <= 0 →
  allFiles ≠ [] →
  result_of (batchLoop env cfg fuel allFiles 0 c) = Diverged ∧
  (Config.batchSize cfg = 0 →
   processedPaths (trace_of (batchLoop env cfg fuel allFiles 0 c)) = []).
Proof.
  intros Hk Hne. split.
  - apply batchLoop_stuck; [exact Hk | lia | exact Hne].
  - now apply batchLoop_zero_idle.
Qed.

End MoreRunFacts.

(** ** More on the enumeration and the destination keys *)

Section MoreListingFacts.

Import Supabase Backup Observe SpecWords.

Variable env : Env.

Lemma listedPaths_app t1 t2 :
  listedPaths (t1 ++ t2) = listedPaths t1 ++ listedPaths t2.
Proof.
  induction t1 as [|ev t1 IH]; [reflexivity|].
  destruct ev; simpl; now rewrite IH.
Qed.

Lemma listedPaths_none tl :
  (∀ p, ¬ In (EvStorageList p) tl) → listedPaths tl = [].
Proof.
  induction tl as [|ev tl IH]; intros H; [reflexivity|].
  destruct ev as [| listed | | | | | | | | | | | | | | | | | |]; simpl;
    try (apply IH; intros p Hp; apply (H p); now right).
  exfalso. apply (H listed). now left.
Qed.

Lemma listLoop_lists_once fuel : ∀ q (P : gset string) fs,
  NoDup (listedPaths (trace_of (listLoop env fuel q P fs))) ∧
  ∀ p, In p (listedPaths (trace_of (listLoop env fuel q P fs))) → p ∉ P.
Proof.
  induction fuel as [|fuel IH]; intros [|cp q] P fs; simpl;
    try (split; [constructor | intros p []]).
  destruct (decide (cp ∈ P)) as [Hin|Hnin]; [apply IH|].
  destruct (listOne_spec env cp q fs) as (tl & -> & Hnl & _).
  unfold bind. simpl fst; simpl snd.
  specialize (IH (q ++ folderPaths cp (listedItems env cp)) (P ∪ {[cp]})
                 (fs ++ fileRecords cp (listedItems env cp))).
  unfold trace_of in *.
  destruct (listLoop env fuel _ _ _) as [r t']. simpl in *.
  rewrite listedPaths_app, (listedPaths_none tl Hnl). simpl.
  destruct IH as [Hnd Hout]. split.
  - apply NoDup_cons. split; [|exact Hnd].
    intros Hc. apply list_elem_of_In, Hout in Hc. set_solver.
  - intros p [<-|Hp]; [exact Hnin|].
    apply Hout in Hp. set_solver.
Qed.

(** X14. The enumeration lists no path twice, also when a folder is
    returned more than once as an entry; this holds at every point of the
    walk, finished or not. *)
Theorem each_path_is_listed_at_most_once fuel :
  NoDup (listedPaths (trace_of (listAllFiles env fuel))).
Proof.
  unfold listAllFiles. apply listLoop_lists_once.
Qed.


End MoreListingFacts.


(** X16. Under one configuration two different paths never get the same
    destination key. *)
Theorem generateS3Key_is_injective cfg p1 p2 :
  S3.generateS3Key cfg p1 = S3.generateS3Key cfg p2 → p1 = p2.
Proof.
  unfold S3.generateS3Key.
  destruct (Config.prefix cfg) as [p|]; [|auto].
  destruct (String.eqb p EmptyString); [auto|].
  intros H. apply append_cancel_l in H. simpl in H. now injection H.
Qed.

(** ** The loaders of the configuration, and the content type *)

Section ConfigFacts.

Import ConfigLoad Observe.

Variable penv : gmap string string.

Lemma truthy_orElse a b : truthy (orElse a b) = truthy a || truthy b.
Proof.
  unfold orElse. destruct (truthy a) eqn:E; [now rewrite E | reflexivity].
Qed.

Lemma truthy_value v : truthy v = true → ∃ s, v = Some s ∧ s ≠ EmptyString.
Proof.
  destruct v as [s|]; [|discriminate]. simpl. intros H.
  exists s. split; [reflexivity|]. intros ->. discriminate H.
Qed.

Lemma orDefault_set s d : s ≠ EmptyString → orDefault (Some s) d = s.
Proof.
  intros Hs. unfold orDefault, orElse, truthy.
  destruct (String.eqb_spec s EmptyString); [contradiction | reflexivity].
Qed.

Lemma orDefault_unset v d : truthy v = false → orDefault v d = d.
Proof.
  intros H. unfold orDefault, orElse. rewrite H. reflexivity.
Qed.

Lemma orDefault_nonempty v d : d ≠ EmptyString → orDefault v d ≠ EmptyString.
Proof.
  intros Hd. destruct (truthy v) eqn:E.
  - destruct (truthy_value v E) as (s & -> & Hs). now rewrite orDefault_set.
  - now rewrite orDefault_unset.
Qed.

Lemma loadSupabaseConfig_cases :
  if supabaseComplete penv
  then ∃ c, loadSupabaseConfig penv = inr c
  else loadSupabaseConfig penv = inl (JsError supabaseIncomplete).
Proof.
  unfold supabaseComplete, loadSupabaseConfig. rewrite truthy_orElse.
  destruct (truthy (penv !! "SUPABASE_URL")); simpl; [|reflexivity].
  destruct (truthy (penv !! "SUPABASE_ANON_KEY")); simpl; [eauto|].
  destruct (truthy (penv !! "SUPABASE_SERVICE_KEY")); simpl; eauto.
Qed.

Lemma loadS3Config_cases :
  if s3Complete penv
  then ∃ c, loadS3Config penv = inr c
  else loadS3Config penv = inl (JsError s3Incomplete).
Proof.
  unfold s3Complete, loadS3Config.
  destruct (truthy (penv !! "S3_BUCKET_NAME")); simpl; [|reflexivity].
  destruct (truthy (penv !! "S3_ACCESS_KEY_ID")); simpl; [|reflexivity].
  destruct (truthy (penv !! "S3_SECRET_ACCESS_KEY")); simpl; eauto.
Qed.

(** X17. [loadConfig] throws the Supabase message when [SUPABASE_URL] or
    both Supabase keys are missing or empty, whatever the S3 variables are;
    else the S3 message when one of the three S3 variables is missing or
    empty; else it returns a configuration. *)
Theorem loadConfig_checks_required_variables :
  (supabaseComplete penv = false →
   loadConfig penv = inl (JsError supabaseIncomplete)) ∧
  (supabaseComplete penv = true → s3Complete penv = false →
   loadConfig penv = inl (JsError s3Incomplete)) ∧
  (supabaseComplete penv = true → s3Complete penv = true →
   ∃ lc, loadConfig penv = inr lc) ∧
  ((∃ lc, loadConfig penv = inr lc) →
   supabaseComplete penv = true ∧ s3Complete penv = true).
Proof.
  pose proof loadSupabaseConfig_cases as Hs.
  pose proof loadS3Config_cases as H3.
  unfold loadConfig.
  destruct (supabaseComplete penv); [destruct Hs as (c & ->) | rewrite Hs];
    (destruct (s3Complete penv); [destruct H3 as (c3 & E3) | ]);
    rewrite ?E3, ?H3;
    repeat split; intros; try discriminate; eauto;
    match goal with H : ∃ _, _ |- _ => destruct H as (? & H); discriminate H end.
Qed.

(** X18. In a loaded configuration the key handed to the storage client is
    the service key whenever [SUPABASE_SERVICE_KEY] is set and not empty, and
    the anon key otherwise; the field [anonKey] already holds that key. *)
Theorem service_key_takes_precedence c :
  loadSupabaseConfig penv = inr c →
  clientKey c = Config.anonKey c ∧
  (∀ s, penv !! "SUPABASE_SERVICE_KEY" = Some s → s ≠ EmptyString →
        clientKey c = s) ∧
  (truthy (penv !! "SUPABASE_SERVICE_KEY") = false →
   ∃ a, penv !! "SUPABASE_ANON_KEY" = Some a ∧ a ≠ EmptyString ∧ clientKey c = a).
Proof.
  unfold loadSupabaseConfig, clientKey. rewrite truthy_orElse.
  destruct (truthy (penv !! "SUPABASE_URL")); simpl; [|discriminate].
  destruct (penv !! "SUPABASE_SERVICE_KEY") as [s|] eqn:Es;
    destruct (penv !! "SUPABASE_ANON_KEY") as [a|] eqn:Ea;
    unfold orElse, truthy; simpl;
    try destruct (String.eqb_spec s EmptyString);
    try destruct (String.eqb_spec a EmptyString);
    simpl; intros H; try discriminate H; injection H as <-; simpl;
    subst; simpl;
    try destruct (String.eqb_spec s EmptyString); try contradiction;
    (split; [reflexivity|]; split;
     [ intros s' Hs' Hne; try discriminate Hs'; injection Hs' as <-;
       first [reflexivity | contradiction]
     | intros Hf; try discriminate Hf; eauto ]).
Qed.

(** X19. A loaded S3 configuration always has a prefix that is not empty
    (an empty [S3_PREFIX] gives the default), so every destination key is
    [prefix/path]: the prefix cannot be switched off from the environment. *)
Theorem loaded_keys_always_carry_a_prefix c :
  loadS3Config penv = inr c →
  ∃ p,
    Config.prefix c = Some p ∧ p ≠ EmptyString ∧
    p = orDefault (penv !! "S3_PREFIX") "supabase-backups/audio" ∧
    ∀ filePath, S3.generateS3Key c filePath = p +:+ "/" +:+ filePath.
Proof.
  unfold loadS3Config.
  destruct (negb _ || negb _ || negb _); [discriminate|].
  intros H. injection H as <-. simpl.
  set (p := orDefault (penv !! "S3_PREFIX") "supabase-backups/audio").
  assert (Hp : p ≠ EmptyString) by (apply orDefault_nonempty; discriminate).
  exists p. repeat split; try assumption.
  intros filePath. unfold S3.generateS3Key. simpl.
  destruct (String.eqb_spec p EmptyString); [contradiction | reflexivity].
Qed.

Lemma parseInt10_number s :
  isNumber s = true → decimalValue s <= JsText.maxExact →
  JsText.parseInt10 s = JsText.SafeInt (decimalValue s).
Proof.
  unfold isNumber. intros H Hmax. apply andb_true_iff in H as [Hd Hne].
  destruct s as [|a s]; [discriminate|]. simpl in Hd.
  apply andb_true_iff in Hd as [Ha Hs].
  unfold JsText.parseInt10. simpl Js.skip_ws. rewrite (digit_not_ws a Ha).
  unfold Js.strip_sign.
  rewrite (digit_not_char a "-" Ha), (digit_not_char a "+" Ha) by reflexivity.
  simpl Js.digits. rewrite (digit_val_decimal 10 a Ha).
  rewrite digits_decimal by exact Hs.
  unfold decimalValue in Hmax |- *. simpl in Hmax |- *.
  rewrite Z.mul_0_l, Z.add_0_l in Hmax |- *.
  destruct (Z.leb_spec (decimalFrom (Z.of_nat (nat_of_ascii a) - 48) s)
              JsText.maxExact); [reflexivity | lia].
Qed.

(** X20. [loadConfig] takes the batch size from [BATCH_SIZE] as the number
    written there when that is a decimal number up to [2^53], 5 when the
    variable is unset or empty, and checks no lower bound: a [BATCH_SIZE] of
    zero loads, and then the batch loop of every run with at least one
    object never ends. *)
Theorem batch_size_is_not_validated lc :
  loadConfig penv = inr lc →
  (truthy (penv !! "BATCH_SIZE") = false → lc_batchSize lc = JsText.SafeInt 5) ∧
  (∀ b, penv !! "BATCH_SIZE" = Some b → isNumber b = true →
     decimalValue b <= 9007199254740992 →
     ∃ cfg,
       toBackupConfig lc = Some cfg ∧
       Config.batchSize cfg = decimalValue b ∧
       (decimalValue b = 0 →
        ∀ world fuel allFiles c,
          allFiles ≠ [] →
          result_of (Backup.batchLoop world cfg fuel allFiles 0 c) = Diverged)).
Proof.
  unfold loadConfig.
  destruct (loadSupabaseConfig penv) as [|sc]; [discriminate|].
  destruct (loadS3Config penv) as [|s3c]; [discriminate|].
  intros H. injection H as <-. unfold toBackupConfig. simpl. split.
  - intros Hunset. now rewrite orDefault_unset.
  - intros b Hb Hn Hmax. rewrite Hb.
    assert (Hne : b ≠ EmptyString).
    { intros ->. discriminate Hn. }
    rewrite orDefault_set, parseInt10_number by assumption.
    eexists. split; [reflexivity|]. split; [reflexivity|].
    intros Hz world fuel allFiles c Hfiles.
    apply batchLoop_stuck; simpl; [lia | lia | exact Hfiles].
Qed.

End ConfigFacts.

Section ContentTypeFacts.

Import JsText ContentType.

Lemma split_nonempty c s : Js.split c s ≠ [].
Proof.
  destruct s as [|a s]; simpl; [discriminate|].
  destruct (Ascii.eqb a c); [discriminate|].
  destruct (Js.split c s); discriminate.
Qed.

Lemma last_cons_nonempty {A} (x : A) l d : l ≠ [] → List.last (x :: l) d = List.last l d.
Proof. destruct l; [contradiction | reflexivity]. Qed.

Lemma split_last_segment c s e :
  ∃ h t, Js.split c (s +:+ String c e) = h :: t ∧ t ≠ [] ∧
         List.last t EmptyString = List.last (Js.split c e) EmptyString.
Proof.
  induction s as [|a s (h & t & E & Ht & Hl)]; simpl.
  - rewrite Ascii.eqb_refl. exists EmptyString, (Js.split c e).
    split; [reflexivity|]. split; [apply split_nonempty | reflexivity].
  - rewrite E. destruct (Ascii.eqb a c).
    + exists EmptyString, (h :: t). split; [reflexivity|].
      split; [discriminate|]. now rewrite last_cons_nonempty.
    + now exists (String a h), t.
Qed.

Lemma pop_last_segment s e :
  Js.includes_char "." e = false →
  pop (Js.split "." (s +:+ String "." e)) = e.
Proof.
  intros He. unfold pop.
  destruct (split_last_segment "." s e) as (h & t & -> & Ht & Hl).
  rewrite last_cons_nonempty by exact Ht.
  rewrite Hl, split_no_sep by exact He. reflexivity.
Qed.

Lemma toLowerCase_app a b :
  toLowerCase (a +:+ b) = toLowerCase a +:+ toLowerCase b.
Proof.
  induction a as [|c a IH]; simpl; [reflexivity | now rewrite IH].
Qed.

Lemma lowerChar_dot a : Ascii.eqb (lowerChar a) "." = Ascii.eqb a ".".
Proof.
  destruct a as [[] [] [] [] [] [] [] []]; reflexivity.
Qed.

Lemma toLowerCase_dots s :
  Js.includes_char "." (toLowerCase s) = Js.includes_char "." s.
Proof.
  induction s as [|a s IH]; simpl; [reflexivity|].
  now rewrite lowerChar_dot, IH.
Qed.

Lemma lowerChar_idempotent a : lowerChar (lowerChar a) = lowerChar a.
Proof.
  destruct a as [[] [] [] [] [] [] [] []]; reflexivity.
Qed.

Lemma toLowerCase_idempotent s : toLowerCase (toLowerCase s) = toLowerCase s.
Proof.
  induction s as [|a s IH]; simpl; [reflexivity|].
  now rewrite lowerChar_idempotent, IH.
Qed.

(** X21. On ASCII names the content type of [stem.ext] is the one of the
    lower-cased [ext], the part after the last dot, whatever the stem is; a
    name without a dot is its own extension; and the case of the letters of
    the name plays no role. *)
Theorem content_type_is_decided_by_last_segment stem ext :
  isAscii (stem +:+ "." +:+ ext) = true →
  Js.includes_char "." ext = false →
  getContentType (stem +:+ "." +:+ ext) = ofExtension (toLowerCase ext) ∧
  getContentType ext = ofExtension (toLowerCase ext) ∧
  getContentType (toLowerCase (stem +:+ "." +:+ ext)) =
    getContentType (stem +:+ "." +:+ ext).
Proof.
  intros _ Hext.
  assert (Hlow : Js.includes_char "." (toLowerCase ext) = false)
    by now rewrite toLowerCase_dots.
  unfold getContentType.
  rewrite toLowerCase_idempotent.
  change (stem +:+ "." +:+ ext) with (stem +:+ String "." ext).
  rewrite toLowerCase_app. simpl toLowerCase at 2.
  change (lowerChar ".") with "."%char.
  rewrite pop_last_segment by exact Hlow.
  rewrite (split_no_sep "." (toLowerCase ext) Hlow).
  repeat split.
Qed.

End ContentTypeFacts.

(** ** The whole run and its notification *)

Section WholeRunFacts.

Import Supabase Backup Observe SpecWords.

Variable env : Env.
Variable cfg : Config.BackupConfig.

Lemma quiet_app t1 t2 : quiet t1 → quiet t2 → quiet (t1 ++ t2).
Proof. intros; apply Forall_app; split; assumption. Qed.

Lemma quiet_not_in tr m : quiet tr → ¬ In (EvNotify m) tr.
Proof.
  induction 1 as [|ev tr Hev _ IH]; intros Hin; [destruct Hin|].
  destruct Hin as [->|Hin]; [discriminate Hev | now apply IH].
Qed.

Lemma quiet_count tr : quiet tr → countEvents isNotify tr = 0%nat.
Proof.
  unfold countEvents. induction 1 as [|ev tr Hev _ IH]; [reflexivity|].
  simpl. now rewrite Hev.
Qed.

Lemma countEvents_app kind t1 t2 :
  countEvents kind (t1 ++ t2) = (countEvents kind t1 + countEvents kind t2)%nat.
Proof. unfold countEvents. now rewrite List.filter_app, length_app. Qed.

Lemma backupFile_quiet file : quiet (trace_of (backupFile env cfg file)).
Proof.
  unfold quiet, trace_of, backupFile, S3.fileExists, bufferMethod, fileMethod, rmTemp,
    downloadFile, S3.uploadBuffer, S3.uploadFile, call, call_val, try_catch,
    bind, ret, emit, throw.
  repeat match goal with
         | |- context [match ?x with _ => _ end] =>
             lazymatch x with
             | s3_list _ _ => destruct x eqn:?
             | storage_download _ _ _ => destruct x eqn:?
             | s3_put _ _ _ => destruct x eqn:?
             | s3_upload _ _ _ => destruct x eqn:?
             | fs_writeFile _ _ _ => destruct x eqn:?
             | fs_rm _ _ _ => destruct x eqn:?
             | smallEnough _ => destruct x eqn:?
             | (0 <? _) => destruct x eqn:?
             end; simpl
         | |- context [if ?x then _ else _] =>
             lazymatch x with
             | smallEnough _ => destruct x eqn:?
             | (0 <? _) => destruct x eqn:?
             end; simpl
         end; repeat constructor.
Qed.

Lemma transfer_quiet file c : quiet (trace_of (transfer env cfg file c)).
Proof.
  rewrite transfer_classifies. pose proof (backupFile_quiet file) as Hq.
  destruct (backupFile env cfg file) as [[u|e|] tr]; unfold trace_of in *; simpl in *;
    try exact Hq.
  destruct (saysAlreadyExists e); simpl; [exact Hq|].
  apply quiet_app; [exact Hq | repeat constructor].
Qed.

Lemma runBatch_quiet batch : ∀ c, quiet (trace_of (runBatch env cfg batch c)).
Proof.
  induction batch as [|file batch IH]; intros c; simpl; [constructor|].
  pose proof (transfer_quiet file c) as Hq. unfold bind.
  destruct (transfer env cfg file c) as [[c1|e|] tr]; unfold trace_of in *; simpl in *;
    try exact Hq.
  specialize (IH c1). destruct (runBatch env cfg batch c1) as [r t]. simpl in *.
  now apply quiet_app.
Qed.

Lemma batchLoop_quiet allFiles fuel : ∀ i c,
  quiet (trace_of (batchLoop env cfg fuel allFiles i c)).
Proof.
  induction fuel as [|fuel IH]; intros i c; simpl;
    destruct (i <? Z.of_nat (length allFiles)); try constructor.
  unfold bind, emit. simpl.
    pose proof (runBatch_quiet
      (Js.slice allFiles i (Z.min (i + Config.batchSize cfg) (Z.of_nat (length allFiles)))) c) as Hq.
    destruct (runBatch env cfg _ c) as [[c1|e|] tr]; unfold trace_of in *; simpl in *;
      try (constructor; [reflexivity | exact Hq]).
    specialize (IH (i + Config.batchSize cfg) c1).
    destruct (batchLoop env cfg fuel allFiles _ c1) as [r t]. simpl in *.
    constructor; [reflexivity | now apply quiet_app].
Qed.

Lemma listing_quiet fuel : quiet (trace_of (listAllFiles env fuel)).
Proof.
  unfold quiet. eapply Forall_impl; [apply (listLoop_events env fuel)|].
  intros ev H. destruct ev; simpl in *; try reflexivity; discriminate H.
Qed.

(** A batch loop that ends has started every object from its index on, and
    has counted each of them once. *)
Lemma batchLoop_done allFiles fuel : ∀ i c c' tr,
  0 < Config.batchSize cfg → 0 <= i →
  batchLoop env cfg fuel allFiles i c = (Done c', tr) →
  processedPaths tr = map path (drop (Z.to_nat i) allFiles) ∧
  counted c' = counted c + Z.of_nat (length (drop (Z.to_nat i) allFiles)).
Proof.
  induction fuel as [|fuel IH]; intros i c c' tr Hk Hi; simpl;
    destruct (Z.ltb_spec i (Z.of_nat (length allFiles))) as [Hlt|Hge];
    try discriminate.
  1, 3: intros H; injection H as <- <-;
        rewrite drop_ge by lia; simpl; split; [reflexivity | lia].
  rewrite slice_batch by lia.
  destruct (runBatch_tally env cfg (take (Z.to_nat (Config.batchSize cfg))
              (drop (Z.to_nat i) allFiles)) c) as (c1 & t1 & E1 & P1 & _).
  destruct (runBatch_counts env cfg (take (Z.to_nat (Config.batchSize cfg))
              (drop (Z.to_nat i) allFiles)) c) as (c1' & t1' & E1' & N1).
  rewrite E1 in E1'. injection E1' as <- <-.
  unfold bind, emit. simpl. rewrite E1.
  destruct (batchLoop env cfg fuel allFiles (i + Config.batchSize cfg) c1)
    as [[c2|e|] t2] eqn:E2; try discriminate.
  intros H; injection H as <- <-.
  assert (Hi' : 0 <= i + Config.batchSize cfg) by lia.
  destruct (IH _ _ _ _ Hk Hi' E2) as (P2 & N2).
  simpl. rewrite processedPaths_app, P1, P2, N2, N1.
  replace (Z.to_nat (i + Config.batchSize cfg))
    with (Z.to_nat i + Z.to_nat (Config.batchSize cfg))%nat by lia.
  rewrite <- drop_drop, <- map_app, take_drop.
  split; [reflexivity|].
  rewrite <- (take_drop (Z.to_nat (Config.batchSize cfg)) (drop (Z.to_nat i) allFiles)) at 3.
  rewrite length_app. lia.
Qed.

Lemma processedPaths_listing tr :
  Forall (fun ev => isListingEvent ev = true) tr → processedPaths tr = [].
Proof.
  induction 1 as [|ev tr Hev _ IH]; [reflexivity|].
  destruct ev; simpl in *; try discriminate Hev; exact IH.
Qed.

Lemma ensureTempDir_quiet :
  quiet (trace_of (ensureTempDir env cfg)) ∧
  processedPaths (trace_of (ensureTempDir env cfg)) = [].
Proof.
  unfold ensureTempDir, call.
  destruct (existsSync env (Config.tempDir cfg)); simpl;
    [split; [constructor | reflexivity]|].
  split; [repeat constructor | reflexivity].
Qed.

(** X22. Whenever a run hands metrics to the notifier, it does so exactly
    once and as its last action, the run ends normally, the staging
    directory was asked to be removed before, the batch size is positive,
    and the metrics add up: the three counts sum to the total, the total is
    positive, and the run has started one transfer per counted object. This
    holds for every world, configuration and fuel. *)
Theorem notification_closes_a_complete_run fuel m :
  In (EvNotify m) (trace_of (backup env cfg fuel)) →
  result_of (backup env cfg fuel) = Done tt ∧
  last (trace_of (backup env cfg fuel)) = Some (EvNotify m) ∧
  countEvents isNotify (trace_of (backup env cfg fuel)) = 1%nat ∧
  In (EvRm true (Config.tempDir cfg)) (trace_of (backup env cfg fuel)) ∧
  0 < totalFiles m ∧
  totalFiles m = successCount m + skipCount m + errorCount m ∧
  Z.of_nat (length (processedPaths (trace_of (backup env cfg fuel)))) = totalFiles m ∧
  0 < Config.batchSize cfg.
Proof.
  intros Hin.
  destruct ensureTempDir_quiet as [Qe Pe].
  pose proof (listing_quiet fuel) as Ql.
  pose proof (listLoop_events env fuel [EmptyString] ∅ []) as Ll.
  fold (listAllFiles env fuel) in Ll. apply processedPaths_listing in Ll.
  destruct (ensureTempDir env cfg) as [[[]|e0|] te] eqn:Hens;
    unfold trace_of in Qe, Pe; simpl in Qe, Pe.
  2, 3: exfalso; unfold backup in Hin; rewrite Hens in Hin;
        unfold trace_of in Hin; simpl in Hin;
        try (apply in_app_or in Hin as [Hin|Hin];
             [now apply (quiet_not_in _ _ Qe) in Hin|];
             destruct Hin as [Hin|[]]; discriminate Hin);
        now apply (quiet_not_in _ _ Qe) in Hin.
  assert (Hdir : result_of (ensureTempDir env cfg) = Done tt) by now rewrite Hens.
  destruct (listAllFiles env fuel) as [[files|e1|] tr0] eqn:Hlist;
    unfold trace_of in Ql, Ll; simpl in Ql, Ll.
  2, 3: exfalso; unfold backup in Hin; rewrite Hens in Hin;
        unfold bind at 1 in Hin; rewrite Hlist in Hin;
        unfold trace_of in Hin; simpl in Hin;
        repeat (apply in_app_or in Hin as [Hin|Hin]);
        try (now apply (quiet_not_in _ _ Qe) in Hin);
        try (now apply (quiet_not_in _ _ Ql) in Hin);
        destruct Hin as [Hin|[]]; discriminate Hin.
  rewrite (backup_after_listing env cfg fuel files tr0 Hdir Hlist) in Hin |- *.
  rewrite Hens in Hin |- *. unfold trace_of at 1 in Hin.
  destruct files as [|f files].
  { exfalso. unfold trace_of in Hin; simpl in Hin.
    repeat (apply in_app_or in Hin as [Hin|Hin]);
      try (now apply (quiet_not_in _ _ Qe) in Hin);
      try (now apply (quiet_not_in _ _ Ql) in Hin).
    destruct Hin as [Hin|[]]; discriminate Hin. }
  pose proof (batchLoop_quiet (f :: files) fuel 0 zeroCounters) as Qb.
  destruct (batchLoop env cfg fuel (f :: files) 0 zeroCounters)
    as [[c|e2|] trb] eqn:Hloop; unfold trace_of in Qb; simpl in Qb.
  2, 3: exfalso; unfold trace_of in Hin; simpl in Hin;
        repeat (apply in_app_or in Hin as [Hin|Hin]);
        try (now apply (quiet_not_in _ _ Qe) in Hin);
        try (now apply (quiet_not_in _ _ Ql) in Hin);
        try (now apply (quiet_not_in _ _ Qb) in Hin);
        destruct Hin as [Hin|[]]; discriminate Hin.
  assert (Hk : 0 < Config.batchSize cfg).
  { destruct (Z.ltb_spec 0 (Config.batchSize cfg)) as [H|H]; [exact H|].
    pose proof (batchLoop_stuck env cfg (f :: files) fuel 0 zeroCounters H
                  ltac:(lia) ltac:(discriminate)) as Hd.
    rewrite Hloop in Hd. discriminate Hd. }
  destruct (batchLoop_done (f :: files) fuel 0 zeroCounters c trb Hk ltac:(lia) Hloop)
    as (Pb & Nb).
  change (Z.to_nat 0) with 0%nat in Pb, Nb. rewrite drop_0 in Pb, Nb.
  rewrite cleanupTempDir_total in Hin |- *.
  set (warn := match fs_rm env true (Config.tempDir cfg) with
               | Some _ => [EvCleanupWarning] | None => [] end) in *.
  assert (Qw : quiet (EvRm true (Config.tempDir cfg) :: warn))
    by (subst warn; destruct (fs_rm env true (Config.tempDir cfg));
        repeat constructor).
  assert (Pw : processedPaths (EvRm true (Config.tempDir cfg) :: warn) = [])
    by (subst warn; destruct (fs_rm env true (Config.tempDir cfg)); reflexivity).
  unfold trace_of in Hin |- *; unfold result_of; cbn [fst snd] in Hin |- *.
  set (M := buildMetrics (f :: files) c (date_now_start env) (date_now_end env)) in *.
  assert (m = M) as ->.
  { repeat (apply in_app_or in Hin as [Hin|Hin]);
      try (now apply (quiet_not_in _ _ Qe) in Hin);
      try (now apply (quiet_not_in _ _ Ql) in Hin);
      try (now apply (quiet_not_in _ _ Qb) in Hin);
      try (now apply (quiet_not_in _ _ Qw) in Hin).
    destruct Hin as [Hin|[]]. now injection Hin as <-. }
  split; [reflexivity|].
  split.
  { rewrite !app_assoc. apply last_snoc. }
  split.
  { rewrite !countEvents_app, (quiet_count _ Qe), (quiet_count _ Ql),
      (quiet_count _ Qb), (quiet_count _ Qw). reflexivity. }
  split.
  { do 3 (apply in_or_app; right). apply in_or_app; left. now left. }
  unfold counted in Nb. subst M. cbn [totalFiles successCount skipCount errorCount buildMetrics].
  cbn [c_success c_skip c_error zeroCounters] in Nb.
  split; [simpl; lia|]. split; [lia|]. split; [|exact Hk].
  rewrite !processedPaths_app, Pe, Ll, Pb, Pw.
  rewrite app_nil_r. simpl. now rewrite length_map.
Qed.
End WholeRunFacts.

(** ** The further properties on concrete inputs *)

(** X1 on the quarter hours. *)
Lemma list_field_matches_its_values_witness :
  Scheduler.matchCronField "0,15,30,45" 30 0 59 = true.
Proof.
  apply (eq_trans
           (list_field_matches_its_values ["0"; "15"; "30"; "45"] 30 0 59
              ltac:(discriminate) ltac:(repeat constructor))).
  reflexivity.
Defined.

(** X2 on office hours with a step that is not read. *)
Lemma range_field_ignores_step_and_list_witness :
  Scheduler.matchCronField "9-17/2" 12 0 23 = true.
Proof.
  apply (eq_trans
           (range_field_ignores_step_and_list "9" "17" "/2" 12 0 23
              eq_refl eq_refl eq_refl
              (or_intror (ex_intro _ "2" (or_introl eq_refl))))).
  reflexivity.
Defined.

(** X4 on a quarter-hourly schedule at half past two. *)
Lemma minute_step_schedule_witness :
  Scheduler.shouldRunBackup "*/15 * * * *" MoreFixtures.halfPastTwo = true.
Proof.
  apply (proj2 (minute_step_schedule "15" MoreFixtures.halfPastTwo eq_refl)).
  split; [vm_compute; discriminate | reflexivity].
Defined.

(** X5 on a large object whose upload is refused. *)
Lemma staging_file_removed_on_every_exit_witness :
  last (trace_of (Backup.backupFile (Fixtures.refusingEnv "access denied")
                    Fixtures.cfg0 (Fixtures.mkFile "a/b.mp3" 200000000)))
  = Some (EvRm false "/tmp/supabase-audio-backups/a_b.mp3").
Proof.
  apply (staging_file_removed_on_every_exit
           (Fixtures.refusingEnv "access denied") Fixtures.cfg0
           (Fixtures.mkFile "a/b.mp3" 200000000)).
  vm_compute. auto 10.
Defined.

(** X7 on a small object in the calm world. *)
Lemma transfer_outcome_by_attempts_witness :
  (Backup.smallEnough (Fixtures.mkFile "c.wav" 10) = true ∧
   Observe.bufferedSucceeds (Fixtures.calmEnv Fixtures.emptyListing)
     Fixtures.cfg0 (Fixtures.mkFile "c.wav" 10)) ∨
  Observe.stagedSucceeds (Fixtures.calmEnv Fixtures.emptyListing)
    Fixtures.cfg0 1 (Fixtures.mkFile "c.wav" 10).
Proof.
  apply (proj1 (proj1 (transfer_outcome_by_attempts
                         (Fixtures.calmEnv Fixtures.emptyListing) Fixtures.cfg0
                         (Fixtures.mkFile "c.wav" 10) eq_refl))).
  reflexivity.
Defined.

(** X8 on a small object in a world where PutObject is refused and the
    staging file cannot be removed: the buffered attempt fails, the staged
    upload succeeds, and the object is counted as failed. *)
Lemma failed_removal_fails_the_transfer_witness :
  result_of (Backup.transfer MoreFixtures.brittleEnv Fixtures.cfg0
               (Fixtures.mkFile "c.wav" 10) Backup.zeroCounters)
  = Done (Backup.incError Backup.zeroCounters).
Proof.
  apply (proj2 (proj2 (proj2 (failed_removal_fails_the_transfer
                                MoreFixtures.brittleEnv Fixtures.cfg0
                                (Fixtures.mkFile "c.wav" 10)
                                Backup.zeroCounters []
                                (JsError "EPERM: operation not permitted")
                                eq_refl
                                ltac:(intros _ (b & _ & Hput); discriminate Hput)
                                eq_refl eq_refl eq_refl eq_refl)))).
  intros (message & [= <-] & Hm). apply includes_spec in Hm. discriminate Hm.
Defined.

(** X9 on a small object when the probe times out. *)
Lemma failed_probe_is_not_a_skip_witness :
  ¬ In (EvSkipExisting "c.wav")
      (trace_of (Backup.backupFile MoreFixtures.timeoutEnv Fixtures.cfg0
                   (Fixtures.mkFile "c.wav" 10))).
Proof.
  apply (proj1 (proj2 (failed_probe_is_not_a_skip
                         MoreFixtures.timeoutEnv Fixtures.cfg0
                         (Fixtures.mkFile "c.wav" 10)
                         (JsError "fileExists timeout after 15s") eq_refl))).
Defined.

(** X11 on the two objects of the bucket [{a/, a/b.mp3, c.wav}] with batch
    size 1. *)
Lemma counters_are_counts_by_outcome_witness :
  ∃ c tr,
    Backup.batchLoop (Fixtures.calmEnv Fixtures.treeListing) (Fixtures.cfgBatch 1) 2
      [Fixtures.mkFile "c.wav" 10; Fixtures.mkFile "a/b.mp3" 200000000]
      0 Backup.zeroCounters = (Done c, tr) ∧
    Backup.c_success c = 2 ∧ Backup.c_skip c = 0 ∧ Backup.c_error c = 0.
Proof.
  destruct (counters_are_counts_by_outcome
              (Fixtures.calmEnv Fixtures.treeListing) (Fixtures.cfgBatch 1) 2
              [Fixtures.mkFile "c.wav" 10; Fixtures.mkFile "a/b.mp3" 200000000])
    as [(c & tr & E & H1 & H2 & H3) _]; [reflexivity | simpl; lia |].
  exists c, tr. repeat split; [exact E | exact H1 | exact H2 | exact H3].
Defined.

(** X12 on the same two objects. *)
Lemma every_object_is_processed_once_in_order_witness :
  Observe.processedPaths
    (trace_of (Backup.batchLoop (Fixtures.calmEnv Fixtures.treeListing)
                 (Fixtures.cfgBatch 1) 2
                 [Fixtures.mkFile "c.wav" 10; Fixtures.mkFile "a/b.mp3" 200000000]
                 0 Backup.zeroCounters))
  = ["c.wav"; "a/b.mp3"].
Proof.
  apply (every_object_is_processed_once_in_order
           (Fixtures.calmEnv Fixtures.treeListing) (Fixtures.cfgBatch 1) 2
           [Fixtures.mkFile "c.wav" 10; Fixtures.mkFile "a/b.mp3" 200000000]);
    [reflexivity | simpl; lia].
Defined.

(** X13 on one object with batch size 0. *)
Lemma nonpositive_batch_size_never_ends_witness :
  result_of (Backup.batchLoop (Fixtures.calmEnv Fixtures.treeListing)
               (Fixtures.cfgBatch 0) 1000 [Fixtures.mkFile "c.wav" 10]
               0 Backup.zeroCounters) = Diverged.
Proof.
  apply (proj1 (nonpositive_batch_size_never_ends
                  (Fixtures.calmEnv Fixtures.treeListing) (Fixtures.cfgBatch 0)
                  1000 [Fixtures.mkFile "c.wav" 10] Backup.zeroCounters
                  ltac:(simpl; lia) ltac:(discriminate))).
Defined.


(** X16 on one path. *)
Lemma generateS3Key_is_injective_witness :
  "a/b.mp3" = "a/b.mp3".
Proof.
  apply (generateS3Key_is_injective (Config.s3 Fixtures.cfg0) "a/b.mp3" "a/b.mp3").
  reflexivity.
Defined.

(** X18 when both keys are set. *)
Lemma service_key_takes_precedence_witness :
  ConfigLoad.clientKey MoreFixtures.serviceLoaded = "service".
Proof.
  apply (proj1 (proj2 (service_key_takes_precedence MoreFixtures.serviceVars
                         MoreFixtures.serviceLoaded
                         ltac:(vm_compute; reflexivity)))
           "service");
    [vm_compute; reflexivity | discriminate].
Defined.

(** X19 with an empty [S3_PREFIX]. *)
Lemma loaded_keys_always_carry_a_prefix_witness :
  ∃ p,
    Config.prefix MoreFixtures.emptyPrefixLoaded = Some p ∧ p ≠ EmptyString ∧
    S3.generateS3Key MoreFixtures.emptyPrefixLoaded "a/b.mp3" = p +:+ "/a/b.mp3".
Proof.
  destruct (loaded_keys_always_carry_a_prefix MoreFixtures.emptyPrefixVars
              MoreFixtures.emptyPrefixLoaded ltac:(vm_compute; reflexivity))
    as (p & H1 & H2 & _ & H4).
  exists p. split; [exact H1|]. split; [exact H2|]. apply H4.
Defined.

(** X20 with [BATCH_SIZE=0]. *)
Lemma batch_size_is_not_validated_witness :
  ∃ cfg,
    ConfigLoad.toBackupConfig MoreFixtures.zeroBatchLoaded = Some cfg ∧
    result_of (Backup.batchLoop (Fixtures.calmEnv Fixtures.treeListing) cfg 1000
                 [Fixtures.mkFile "c.wav" 10] 0 Backup.zeroCounters) = Diverged.
Proof.
  destruct (proj2 (batch_size_is_not_validated MoreFixtures.zeroBatchVars
                     MoreFixtures.zeroBatchLoaded ltac:(vm_compute; reflexivity))
              "0" ltac:(vm_compute; reflexivity) eq_refl
              ltac:(vm_compute; discriminate))
    as (cfg & H1 & _ & H3).
  exists cfg. split; [exact H1|].
  apply H3; [reflexivity | discriminate].
Defined.

(** X21 on a name with two dots and capital letters. *)
Lemma content_type_is_decided_by_last_segment_witness :
  ContentType.getContentType "Interview.Final.MP3" = ContentType.Mime "audio/mpeg".
Proof.
  apply (eq_trans
           (proj1 (content_type_is_decided_by_last_segment "Interview.Final" "MP3"
                     eq_refl eq_refl))).
  reflexivity.
Defined.

(** X22 on the bucket [{a/, a/b.mp3, c.wav}]: two objects copied in three
    seconds. *)
Lemma notification_closes_a_complete_run_witness :
  last (trace_of (Backup.backup (Fixtures.calmEnv Fixtures.treeListing)
                    Fixtures.cfg0 2))
  = Some (EvNotify {| totalFiles := 2; successCount := 2; skipCount := 0;
                      errorCount := 0; duration := 3; totalSize := 200000010;
                      startTime := 1000; endTime := 3600 |}).
Proof.
  apply (proj1 (proj2 (notification_closes_a_complete_run
                         (Fixtures.calmEnv Fixtures.treeListing) Fixtures.cfg0 2
                         {| totalFiles := 2; successCount := 2; skipCount := 0;
                            errorCount := 0; duration := 3; totalSize := 200000010;
                            startTime := 1000; endTime := 3600 |}
                         ltac:(vm_compute; auto 40)))).
Defined.
